(** * Signals bot: signal generation, selection, sizing and ranking

    A shallow embedding of the decision logic of the repository's
    [strategies.py], [signals_bot.py] and [config.py].

    Numbers.  The Python code computes on [float] and [int].  Here every
    [float] is an exact rational ([Q]) and every [int] an integer ([Z]); the
    decimal literals of the source ([0.97], [1.06], ...) are the rationals
    they denote.  Division raises [ZeroDivisionError] on a zero divisor, as
    Python's [/] does, and the [try]/[except] blocks of the source are kept:
    computations that can raise live in the error monad [res].

    Fields of the source that no decision reads ([reasoning], [timestamp],
    [market_cap], the wall-clock fields of the result) are left out. *)

From Stdlib Require Import QArith Qabs Qround ZArith Lia Ascii String
  Sorted Permutation.
From Stdlib Require PrimFloat FloatOps SpecFloat FloatAxioms.
From stdpp Require Import gmap strings.

Local Open Scope Q_scope.

(** ** Python arithmetic on rationals *)

Module Py.

Inductive exn : Type :=
| ZeroDivisionError
| KeyError (key : string).

Inductive res (A : Type) : Type :=
| Ok (a : A)
| Raise (e : exn).
Arguments Ok {A} a.
Arguments Raise {A} e.

Definition bind {A B} (m : res A) (k : A -> res B) : res B :=
  match m with
  | Ok a => k a
  | Raise e => Raise e
  end.

(** [x / y] of Python. *)
Definition div (x y : Q) : res Q :=
  if Qeq_bool y 0 then Raise ZeroDivisionError else Ok (x / y).

(** [x < y], [x <= y] and [x == y] as tests. *)
Definition ltb (x y : Q) : bool := negb (Qle_bool y x).
Definition leb (x y : Q) : bool := Qle_bool x y.
Definition eqb (x y : Q) : bool := Qeq_bool x y.

(** [min(a, b)]: the first argument unless the second is strictly smaller. *)
Definition min (a b : Q) : Q := if ltb b a then b else a.

(** [max(a, b)]: the first argument unless the second is strictly larger. *)
Definition max (a b : Q) : Q := if ltb a b then b else a.

(** [int(x)]: truncation toward zero. *)
Definition int (x : Q) : Z := Z.quot (Qnum x) (Zpos (Qden x)).

(** [d[key]] on a key that may be absent. *)
Definition getitem {A} (key : string) (o : option A) : res A :=
  match o with
  | Some a => Ok a
  | None => Raise (KeyError key)
  end.

End Py.

#[export] Instance res_ret : MRet Py.res := @Py.Ok.
#[export] Instance res_bind : MBind Py.res := fun A B k m => Py.bind m k.

Import Py.

(** ** Data model *)

(** [data_fetcher.StockData]. *)
Record StockData : Type := {
  symbol : string;
  current_price : Q;
  previous_close : Q;
  premarket_price : option Q;
  premarket_volume : Z;
  regular_volume : Z;
  avg_volume : Q;
  gap_percent : Q
}.

Inductive SignalType : Type := BUY | SELL | HOLD.

(** [strategies.StrategySignal]. *)
Record StrategySignal : Type := {
  sig_symbol : string;
  strategy_name : string;
  signal_type : SignalType;
  confidence : Q;
  entry_price : Q;
  stop_loss : Q;
  take_profit : Q;
  risk_reward_ratio : Q
}.

(** [config.TradingConfig], the fields the engine reads. *)
Record TradingConfig : Type := {
  max_risk_per_trade : Q;
  min_risk_reward_ratio : Q;
  max_position_size : Q;
  volume_threshold_multiplier : Q;
  gap_threshold_percent : Q;
  strategy_weights : gmap string Q
}.

(** [config.trading_config = TradingConfig()]. *)
Definition trading_config : TradingConfig := {|
  max_risk_per_trade := 0.02;
  min_risk_reward_ratio := 2.0;
  max_position_size := 0.10;
  volume_threshold_multiplier := 2.0;
  gap_threshold_percent := 3.0;
  strategy_weights :=
    <["gap_momentum"%string := 0.4]>
      (<["volume_breakout"%string := 0.3]>
         (<["premarket_momentum"%string := 0.3]> ∅))
|}.

(** ** Strategies ([strategies.py]) *)

(** A strategy object: its [name] and its [analyze] method.  The module-level
    [trading_config] that the methods read is passed explicitly. *)
Record BaseStrategy : Type := {
  name : string;
  analyze : TradingConfig -> StockData -> option StrategySignal
}.

(** [try: body except Exception: return None]. *)
Definition try_or_none {A} (body : res (option A)) : option A :=
  match body with
  | Ok r => r
  | Raise _ => None
  end.

Module GapMomentumStrategy.

Definition name : string := "Gap Momentum".

(** The body of the [try] block of [analyze]. *)
Definition analyze_body (cfg : TradingConfig) (stock_data : StockData)
  : res (option StrategySignal) :=
  let gap := gap_percent stock_data in
  let price := current_price stock_data in
  volume_ratio ←
    (if ltb 0 (avg_volume stock_data) then
       let total_volume :=
         (regular_volume stock_data + premarket_volume stock_data)%Z in
       div (inject_Z total_volume) (avg_volume stock_data)
     else Ok 1);
  if leb (gap_threshold_percent cfg) gap then
    if leb (volume_threshold_multiplier cfg) volume_ratio then
      let entry := price in
      let stop := price * 0.97 in
      let target := price * 1.06 in
      let conf := min 0.9 ((gap / 10.0) * (volume_ratio / 3.0)) in
      rr ← div (target - entry) (entry - stop);
      Ok (Some {| sig_symbol := symbol stock_data;
                  strategy_name := name;
                  signal_type := BUY;
                  confidence := conf;
                  entry_price := entry;
                  stop_loss := stop;
                  take_profit := target;
                  risk_reward_ratio := rr |})
    else Ok None
  else if leb gap (- gap_threshold_percent cfg) then
    if leb (volume_threshold_multiplier cfg) volume_ratio then
      let entry := price in
      let stop := price * 0.95 in
      let target := price * 1.08 in
      let conf := min 0.8 ((Qabs gap / 15.0) * (volume_ratio / 3.0)) in
      rr ← div (target - entry) (entry - stop);
      Ok (Some {| sig_symbol := symbol stock_data;
                  strategy_name := name;
                  signal_type := BUY;
                  confidence := conf;
                  entry_price := entry;
                  stop_loss := stop;
                  take_profit := target;
                  risk_reward_ratio := rr |})
    else Ok None
  else Ok None.

Definition analyze (cfg : TradingConfig) (stock_data : StockData)
  : option StrategySignal :=
  try_or_none (analyze_body cfg stock_data).

End GapMomentumStrategy.

Module VolumeBreakoutStrategy.

Definition name : string := "Volume Breakout".

Definition analyze_body (cfg : TradingConfig) (stock_data : StockData)
  : res (option StrategySignal) :=
  let price := current_price stock_data in
  let total_volume :=
    (regular_volume stock_data + premarket_volume stock_data)%Z in
  if eqb (avg_volume stock_data) 0 then Ok None
  else
    volume_ratio ← div (inject_Z total_volume) (avg_volume stock_data);
    if leb (volume_threshold_multiplier cfg * 1.5) volume_ratio then
      let gap := gap_percent stock_data in
      let signal (entry stop target : Q) (ty : SignalType) :=
        let conf := min 0.85 (volume_ratio / 5.0) in
        rr_ratio ← div (Qabs (target - entry)) (Qabs (entry - stop));
        Ok (Some {| sig_symbol := symbol stock_data;
                    strategy_name := name;
                    signal_type := ty;
                    confidence := conf;
                    entry_price := entry;
                    stop_loss := stop;
                    take_profit := target;
                    risk_reward_ratio := rr_ratio |}) in
      if ltb 1.0 gap then
        signal price (price * 0.96) (price * 1.08) BUY
      else if ltb gap (- 1.0) then
        signal price (price * 1.04) (price * 0.92) SELL
      else Ok None
    else Ok None.

Definition analyze (cfg : TradingConfig) (stock_data : StockData)
  : option StrategySignal :=
  try_or_none (analyze_body cfg stock_data).

End VolumeBreakoutStrategy.

Module PremarketMomentumStrategy.

Definition name : string := "Premarket Momentum".

(** [stock_data.premarket_price or current_price]: a missing price and a
    price of zero are both falsy. *)
Definition premarket_price_or_current (stock_data : StockData) : Q :=
  match premarket_price stock_data with
  | Some p => if eqb p 0 then current_price stock_data else p
  | None => current_price stock_data
  end.

Definition analyze_body (cfg : TradingConfig) (stock_data : StockData)
  : res (option StrategySignal) :=
  let price := current_price stock_data in
  let prev := previous_close stock_data in
  let pm_price := premarket_price_or_current stock_data in
  if ltb 0 prev then
    q ← div (pm_price - prev) prev;
    let premarket_move := q * 100 in
    if leb 2.0 (Qabs premarket_move) then
      premarket_volume_ratio ←
        (if ltb 0 (avg_volume stock_data)
            && (0 <? premarket_volume stock_data)%Z then
           div (inject_Z (premarket_volume stock_data))
               (avg_volume stock_data * 0.1)
         else Ok 1);
      let signal (entry stop target : Q) (ty : SignalType) :=
        let conf :=
          min 0.8 ((Qabs premarket_move / 8.0) * premarket_volume_ratio) in
        rr_ratio ← div (target - entry) (entry - stop);
        Ok (Some {| sig_symbol := symbol stock_data;
                    strategy_name := name;
                    signal_type := ty;
                    confidence := conf;
                    entry_price := entry;
                    stop_loss := stop;
                    take_profit := target;
                    risk_reward_ratio := rr_ratio |}) in
      if ltb 2.0 premarket_move then
        signal price (price * 0.97) (price * 1.06) BUY
      else if ltb premarket_move (- 2.0) then
        signal price (price * 0.94) (price * 1.09) BUY
      else Ok None
    else Ok None
  else Ok None.

Definition analyze (cfg : TradingConfig) (stock_data : StockData)
  : option StrategySignal :=
  try_or_none (analyze_body cfg stock_data).

End PremarketMomentumStrategy.

(** ** Python list and string helpers *)

(** [l.sort(key=key, reverse=True)]: sorts by non-increasing key and keeps
    the original order of elements whose keys compare equal (Python's sort
    is stable, also under [reverse=True]).  Each element is inserted, from
    the right end of the list, in front of the first element whose key is
    not strictly larger. *)
Fixpoint insert_reverse {A} (key : A -> Q) (x : A) (l : list A) : list A :=
  match l with
  | [] => [x]
  | y :: l' =>
      if ltb (key x) (key y) then y :: insert_reverse key x l' else x :: l
  end.

Definition sort_reverse {A} (key : A -> Q) (l : list A) : list A :=
  foldr (insert_reverse key) [] l.

(** [s.lower()] on the ASCII letters. *)
Definition ascii_lower (c : ascii) : ascii :=
  let n := nat_of_ascii c in
  if Nat.leb 65 n && Nat.leb n 90 then ascii_of_nat (n + 32) else c.

Fixpoint string_map (f : ascii -> ascii) (s : string) : string :=
  match s with
  | EmptyString => EmptyString
  | String c s' => String (f c) (string_map f s')
  end.

Definition lower (s : string) : string := string_map ascii_lower s.

(** [s.replace(old, new)] for one-character [old] and [new]. *)
Definition replace (old new : ascii) (s : string) : string :=
  string_map (fun c => if Ascii.eqb c old then new else c) s.

(** ** StrategyManager ([strategies.py]) *)

Module StrategyManager.

(** [self.strategies], in registration order. *)
Definition strategies : list BaseStrategy :=
  [ {| name := GapMomentumStrategy.name;
       analyze := GapMomentumStrategy.analyze |};
    {| name := VolumeBreakoutStrategy.name;
       analyze := VolumeBreakoutStrategy.analyze |};
    {| name := PremarketMomentumStrategy.name;
       analyze := PremarketMomentumStrategy.analyze |} ].

(** One iteration of the loop of [analyze_stock]. *)
Definition analyze_step (cfg : TradingConfig) (stock_data : StockData)
  (signals : list StrategySignal) (strategy : BaseStrategy)
  : list StrategySignal :=
  match analyze strategy cfg stock_data with
  | Some signal =>
      if ltb 0.3 (confidence signal) then
        if leb (min_risk_reward_ratio cfg) (risk_reward_ratio signal)
        then signals ++ [signal]
        else signals
      else signals
  | None => signals
  end.

Definition analyze_stock (cfg : TradingConfig) (stock_data : StockData)
  : list StrategySignal :=
  foldl (analyze_step cfg stock_data) [] strategies.

(** [signal.strategy_name.lower().replace(' ', '_')]. *)
Definition weight_key (signal : StrategySignal) : string :=
  replace " "%char "_"%char (lower (strategy_name signal)).

(** [trading_config.strategy_weights.get(key, 0.5)]. *)
Definition strategy_weight (cfg : TradingConfig) (signal : StrategySignal)
  : Q :=
  default 0.5 (strategy_weights cfg !! weight_key signal).

Definition weighted_score (cfg : TradingConfig) (signal : StrategySignal)
  : Q :=
  confidence signal * strategy_weight cfg signal.

Definition get_best_signal (cfg : TradingConfig)
  (signals : list StrategySignal) : option StrategySignal :=
  match signals with
  | [] => None
  | _ =>
      let weighted_signals :=
        map (fun signal => (weighted_score cfg signal, signal)) signals in
      match sort_reverse fst weighted_signals with
      | best :: _ => Some (snd best)
      | [] => None
      end
  end.

End StrategyManager.

(** ** Position sizing *)

(** The dictionary both sizing functions return.  Keys that a return
    statement leaves out are [None]. *)
Record PositionInfo : Type := {
  shares : Z;
  position_value : Q;
  risk_amount : Q;
  position_percent : option Q;
  potential_profit : option Q;
  potential_loss : option Q
}.

(** [account_value = 100000], the local constant of both functions. *)
Definition account_value : Q := 100000.

(** [BaseStrategy.calculate_position_sizing] ([strategies.py]). *)
Definition calculate_position_sizing (cfg : TradingConfig)
  (stock_data : StockData) (entry stop : Q) : res PositionInfo :=
  let risk_budget := account_value * max_risk_per_trade cfg in
  let price_risk := Qabs (entry - stop) in
  if eqb price_risk 0 then
    Ok {| shares := 0; position_value := 0; risk_amount := 0;
          position_percent := None;
          potential_profit := None; potential_loss := None |}
  else
    q ← div risk_budget price_risk;
    let shares0 := int q in
    let position_value0 := inject_Z shares0 * entry in
    let max_position_value := account_value * max_position_size cfg in
    '(shares1, position_value1) ←
      (if ltb max_position_value position_value0 then
         q' ← div max_position_value entry;
         Ok (int q', inject_Z (int q') * entry)
       else Ok (shares0, position_value0));
    Ok {| shares := shares1;
          position_value := position_value1;
          risk_amount := inject_Z shares1 * price_risk;
          position_percent := Some ((position_value1 / account_value) * 100);
          potential_profit := None; potential_loss := None |}.

(** ** SignalsBot ([signals_bot.py]) *)

(** [round(x)] to the nearest integer, halves to the even neighbour, and
    [round(x, ndigits)]. *)
Definition round_half_even (x : Q) : Z :=
  let f := Qfloor x in
  match Qcompare (x - inject_Z f) (1 # 2) with
  | Lt => f
  | Gt => (f + 1)%Z
  | Eq => if Z.even f then f else (f + 1)%Z
  end.

Definition round (x : Q) (ndigits : nat) : Q :=
  let scale := inject_Z (10 ^ Z.of_nat ndigits) in
  inject_Z (round_half_even (x * scale)) / scale.

(** [sum(...)] over floats. *)
Definition Qsum (l : list Q) : Q := foldl Qplus 0 l.

(** The [position_sizing] and [volume_info] blocks of a reported signal. *)
Record PositionSizingDict : Type := {
  ps_shares : Z;
  ps_position_value : Q;
  ps_position_percent : Q;
  ps_risk_amount : Q;
  ps_potential_profit : Q;
  ps_potential_loss : Q
}.

Record VolumeInfoDict : Type := {
  vi_current_volume : Z;
  vi_avg_volume : Z;
  vi_volume_ratio : Q
}.

(** One entry of [result['signals']]. *)
Record SignalDict : Type := {
  sd_symbol : string;
  sd_strategy : string;
  sd_signal_type : SignalType;
  sd_confidence : Q;
  sd_current_price : Q;
  sd_entry_price : Q;
  sd_stop_loss : Q;
  sd_take_profit : Q;
  sd_risk_reward_ratio : Q;
  sd_gap_percent : Q;
  sd_position_sizing : PositionSizingDict;
  sd_volume_info : VolumeInfoDict
}.

(** [result['summary']].  [_create_result] sets the statistics and no
    ['error']; [_create_empty_result] sets ['error'] and no statistics. *)
Record SummaryStats : Type := {
  avg_confidence : Q;
  avg_risk_reward : Q;
  buy_signals : nat;
  sell_signals : nat;
  total_risk_amount : Q;
  total_position_value : Q
}.

Record Summary : Type := {
  total_stocks_analyzed : nat;
  signals_generated : nat;
  stats : option SummaryStats;
  error : option string
}.

Record ConfigDict : Type := {
  cd_max_risk_per_trade : Q;
  cd_min_risk_reward_ratio : Q;
  cd_gap_threshold_percent : Q;
  cd_volume_threshold_multiplier : Q
}.

Record Result : Type := {
  summary : Summary;
  signals : list SignalDict;
  config : ConfigDict
}.

Definition is_buy (t : SignalType) : bool :=
  match t with BUY => true | _ => false end.
Definition is_sell (t : SignalType) : bool :=
  match t with SELL => true | _ => false end.

Module SignalsBot.

Definition Entry : Type := StrategySignal * StockData * PositionInfo.

Definition _calculate_position_info (cfg : TradingConfig)
  (signal : StrategySignal) (stock_data : StockData) : res PositionInfo :=
  let risk_budget := account_value * max_risk_per_trade cfg in
  let price_risk := Qabs (entry_price signal - stop_loss signal) in
  if eqb price_risk 0 then
    Ok {| shares := 0; position_value := 0; risk_amount := 0;
          position_percent := Some 0;
          potential_profit := None; potential_loss := None |}
  else
    q ← div risk_budget price_risk;
    let shares0 := int q in
    let position_value0 := inject_Z shares0 * entry_price signal in
    let max_position_value := account_value * max_position_size cfg in
    '(shares1, position_value1) ←
      (if ltb max_position_value position_value0 then
         q' ← div max_position_value (entry_price signal);
         Ok (int q', inject_Z (int q') * entry_price signal)
       else Ok (shares0, position_value0));
    Ok {| shares := shares1;
          position_value := position_value1;
          risk_amount := inject_Z shares1 * price_risk;
          position_percent :=
            Some ((position_value1 / account_value) * 100);
          potential_profit :=
            Some (inject_Z shares1
                  * (take_profit signal - entry_price signal));
          potential_loss :=
            Some (inject_Z shares1
                  * (entry_price signal - stop_loss signal)) |}.

(** The body of the loop over [stock_data.items()]: what one instrument
    adds to [all_signals]. *)
Definition select_one (cfg : TradingConfig) (data : StockData)
  : res (list Entry) :=
  let signals := StrategyManager.analyze_stock cfg data in
  match signals with
  | [] => Ok []
  | _ =>
      match StrategyManager.get_best_signal cfg signals with
      | Some best_signal =>
          position_info ← _calculate_position_info cfg best_signal data;
          Ok [(best_signal, data, position_info)]
      | None => Ok []
      end
  end.

(** [all_signals] after the loop, in the iteration order of the
    dictionary [stock_data] (its insertion order). *)
Fixpoint all_signals (cfg : TradingConfig)
  (stock_data : list (string * StockData)) : res (list Entry) :=
  match stock_data with
  | [] => Ok []
  | (_, data) :: rest =>
      here ← select_one cfg data;
      later ← all_signals cfg rest;
      Ok (here ++ later)
  end.

Definition is_valid (cfg : TradingConfig) (e : Entry) : bool :=
  let signal := e.1.1 in
  leb 0.4 (confidence signal)
  && leb (min_risk_reward_ratio cfg) (risk_reward_ratio signal).

Definition rank_key (e : Entry) : Q :=
  confidence e.1.1 * risk_reward_ratio e.1.1.

(** [valid_signals], sorted, and cut to the first ten. *)
Definition top_signals (cfg : TradingConfig) (all : list Entry)
  : list Entry :=
  let valid_signals := List.filter (is_valid cfg) all in
  take 10 (sort_reverse rank_key valid_signals).

Definition config_dict (cfg : TradingConfig) : ConfigDict :=
  {| cd_max_risk_per_trade := max_risk_per_trade cfg;
     cd_min_risk_reward_ratio := min_risk_reward_ratio cfg;
     cd_gap_threshold_percent := gap_threshold_percent cfg;
     cd_volume_threshold_multiplier := volume_threshold_multiplier cfg |}.

Definition signal_dict (e : Entry) : res SignalDict :=
  let '(signal, stock_data, position_info) := e in
  let current_volume :=
    (regular_volume stock_data + premarket_volume stock_data)%Z in
  position_percent_ ←
    getitem "position_percent" (position_percent position_info);
  potential_profit_ ←
    getitem "potential_profit" (potential_profit position_info);
  potential_loss_ ←
    getitem "potential_loss" (potential_loss position_info);
  Ok {| sd_symbol := sig_symbol signal;
        sd_strategy := strategy_name signal;
        sd_signal_type := signal_type signal;
        sd_confidence := round (confidence signal) 3;
        sd_current_price := round (current_price stock_data) 2;
        sd_entry_price := round (entry_price signal) 2;
        sd_stop_loss := round (stop_loss signal) 2;
        sd_take_profit := round (take_profit signal) 2;
        sd_risk_reward_ratio := round (risk_reward_ratio signal) 2;
        sd_gap_percent := round (gap_percent stock_data) 2;
        sd_position_sizing :=
          {| ps_shares := shares position_info;
             ps_position_value := round (position_value position_info) 2;
             ps_position_percent := round position_percent_ 1;
             ps_risk_amount := round (risk_amount position_info) 2;
             ps_potential_profit := round potential_profit_ 2;
             ps_potential_loss := round potential_loss_ 2 |};
        sd_volume_info :=
          {| vi_current_volume := current_volume;
             vi_avg_volume := int (avg_volume stock_data);
             vi_volume_ratio :=
               round (inject_Z current_volume
                      / max (avg_volume stock_data) 1) 2 |} |}.

Fixpoint signal_dicts (signals_data : list Entry) : res (list SignalDict) :=
  match signals_data with
  | [] => Ok []
  | e :: rest =>
      d ← signal_dict e;
      ds ← signal_dicts rest;
      Ok (d :: ds)
  end.

Definition len_Q {A} (l : list A) : Q := inject_Z (Z.of_nat (length l)).

Definition _create_result (cfg : TradingConfig) (signals_data : list Entry)
  (all_stock_data : list (string * StockData)) : res Result :=
  signals_list ← signal_dicts signals_data;
  let nonempty := match signals_list with [] => false | _ => true end in
  let summary_ :=
    {| total_stocks_analyzed := length all_stock_data;
       signals_generated := length signals_list;
       stats := Some
         {| avg_confidence :=
              if nonempty then
                round (Qsum (map sd_confidence signals_list)
                       / len_Q signals_list) 3
              else 0;
            avg_risk_reward :=
              if nonempty then
                round (Qsum (map sd_risk_reward_ratio signals_list)
                       / len_Q signals_list) 2
              else 0;
            buy_signals :=
              length (List.filter (fun s => is_buy (sd_signal_type s))
                        signals_list);
            sell_signals :=
              length (List.filter (fun s => is_sell (sd_signal_type s))
                        signals_list);
            total_risk_amount :=
              round (Qsum (map (fun s => ps_risk_amount
                                           (sd_position_sizing s))
                             signals_list)) 2;
            total_position_value :=
              round (Qsum (map (fun s => ps_position_value
                                           (sd_position_sizing s))
                             signals_list)) 2 |};
       error := None |} in
  Ok {| summary := summary_;
        signals := signals_list;
        config := config_dict cfg |}.

Definition _create_empty_result (cfg : TradingConfig) (reason : string)
  : Result :=
  {| summary := {| total_stocks_analyzed := 0;
                   signals_generated := 0;
                   stats := None;
                   error := Some reason |};
     signals := [];
     config := config_dict cfg |}.

(** [str(e)] of the exceptions the engine can raise. *)
Definition str_exn (e : exn) : string :=
  match e with
  | ZeroDivisionError => "float division by zero"
  | KeyError key => "'" +:+ key +:+ "'"
  end.

(** The body of the [try] block of [run_analysis], after the snapshot
    dictionary [stock_data] has been fetched. *)
Definition run_analysis_body (cfg : TradingConfig)
  (stock_data : list (string * StockData)) : res Result :=
  match stock_data with
  | [] => Ok (_create_empty_result cfg "No stock data available")
  | _ =>
      all ← all_signals cfg stock_data;
      _create_result cfg (top_signals cfg all) stock_data
  end.

Definition run_analysis (cfg : TradingConfig)
  (stock_data : list (string * StockData)) : Result :=
  match run_analysis_body cfg stock_data with
  | Ok result => result
  | Raise e => _create_empty_result cfg ("Error: " +:+ str_exn e)
  end.

End SignalsBot.

(** ** Data fetcher ([data_fetcher.py]) and the remaining configuration *)

(** The fields of [config.TradingConfig] that only the data fetcher reads,
    with their defaults. *)
Record FetchConfig : Type := {
  min_price : Q;
  max_price : Q;
  max_stocks_to_analyze : Z
}.

Definition fetch_config : FetchConfig := {|
  min_price := 1.0;
  max_price := 500.0;
  max_stocks_to_analyze := 50
|}.

(** [config.WATCHLIST_SYMBOLS]. *)
Definition WATCHLIST_SYMBOLS : list string :=
  [ "AAPL"; "MSFT"; "GOOGL"; "AMZN"; "TSLA"; "NVDA"; "META"; "BRK.B";
    "LLY"; "AVGO"; "WMT"; "JPM"; "XOM"; "UNH"; "V"; "PG"; "MA"; "JNJ";
    "HD"; "CVX"; "ABBV"; "PEP"; "KO"; "BAC"; "TMO"; "COST"; "MRK"; "NFLX";
    "CRM"; "ACN"; "LIN"; "ABT"; "ADBE"; "CSCO"; "DHR"; "VZ"; "TXN"; "NKE";
    "WFC"; "PM"; "RTX"; "INTC"; "UPS"; "CMCSA"; "NEE"; "T"; "COP"; "ORCL"
  ]%string.

(** [l[:n]]: the first [n] elements, or all but the last [-n] when [n] is
    negative; out-of-range bounds are clamped. *)
Definition slice_to {A} (l : list A) (n : Z) : list A :=
  if (0 <=? n)%Z then take (Z.to_nat n) l
  else take (length l - Z.to_nat (- n)) l.

(** What [_get_yahoo_quote] returns for one symbol: a dictionary whose keys
    ['premarket_price'] and ['premarket_volume'] may be missing (both are in
    the empty dictionary of a failed request). *)
Record PremarketQuote : Type := {
  quote_price : option Q;
  quote_volume : option Z
}.

Module PremarketDataFetcher.

(** [symbol in results]. *)
Definition contains (results : list (string * StockData)) (sym : string)
  : bool :=
  existsb (fun kv => String.eqb kv.1 sym) results.

(** The two assignments to [results[symbol]]. *)
Definition set_premarket (pm_data : PremarketQuote) (data : StockData)
  : StockData :=
  {| symbol := symbol data;
     current_price := current_price data;
     previous_close := previous_close data;
     premarket_price := quote_price pm_data;
     premarket_volume := default 0%Z (quote_volume pm_data);
     regular_volume := regular_volume data;
     avg_volume := avg_volume data;
     gap_percent := gap_percent data |}.

(** One iteration of the merge loop of [get_premarket_data]. *)
Definition merge_one (results : list (string * StockData))
  (entry : string * PremarketQuote) : list (string * StockData) :=
  let '(sym, pm_data) := entry in
  if contains results sym then
    map (fun kv : string * StockData =>
           if String.eqb kv.1 sym then (kv.1, set_premarket pm_data kv.2)
           else kv)
      results
  else results.

(** [get_premarket_data], given what the two fetches returned: the snapshots
    of [_fetch_yfinance_data] and the quotes of
    [_fetch_yahoo_premarket_data], both in dictionary order. *)
Definition get_premarket_data (use_yfinance : bool)
  (yf_data : list (string * StockData))
  (premarket_data : list (string * PremarketQuote))
  : list (string * StockData) :=
  let results := if use_yfinance then yf_data else [] in
  foldl merge_one results premarket_data.

(** [get_most_active_premarket]: slicing raises nothing, so the fallback of
    the [except] branch is not taken. *)
Definition get_most_active_premarket (fc : FetchConfig) : list string :=
  slice_to WATCHLIST_SYMBOLS (max_stocks_to_analyze fc).

(** The tests of one iteration of [filter_stocks_by_criteria]; [false] is
    [continue]. *)
Definition meets_criteria (fc : FetchConfig) (data : StockData) : bool :=
  if ltb (current_price data) (min_price fc)
     || ltb (max_price fc) (current_price data) then false
  else if (regular_volume data =? 0)%Z && (premarket_volume data =? 0)%Z
  then false
  else if ltb (Qabs (gap_percent data)) 1.0 then false
  else true.

Definition filter_stocks_by_criteria (fc : FetchConfig)
  (stock_data : list (string * StockData)) : list (string * StockData) :=
  List.filter (fun kv => meets_criteria fc kv.2) stock_data.

(** [fetch_premarket_stocks], given what the two fetches returned. *)
Definition fetch_premarket_stocks (fc : FetchConfig) (use_yfinance : bool)
  (yf_data : list (string * StockData))
  (premarket_data : list (string * PremarketQuote))
  : list (string * StockData) :=
  filter_stocks_by_criteria fc
    (get_premarket_data use_yfinance yf_data premarket_data).

End PremarketDataFetcher.

(** ** The evaluators on binary64

    The same three evaluators with every [float] as an IEEE 754 binary64
    number, for the inputs on which rounding, overflow or NaN decide: the
    literals are the nearest binary64 values, every operation rounds to
    nearest-even, a comparison with NaN is false, and [/] raises on a
    divisor equal to zero of either sign. *)

Module Binary64.

Import PrimFloat.
#[local] Set Warnings "-inexact-float".
Local Open Scope float_scope.

Inductive exn : Type :=
| ZeroDivisionError
| OverflowError.

Inductive res (A : Type) : Type :=
| Ok (a : A)
| Raise (e : exn).
Arguments Ok {A} a.
Arguments Raise {A} e.

Definition bind {A B} (m : res A) (k : A -> res B) : res B :=
  match m with
  | Ok a => k a
  | Raise e => Raise e
  end.

(** [x / y] of Python on two floats. *)
Definition div (x y : float) : res float :=
  if PrimFloat.eqb y 0 then Raise ZeroDivisionError else Ok (x / y).



(** [min(a, b)]: the first argument unless the second is strictly smaller. *)
Definition min (a b : float) : float := if PrimFloat.ltb b a then b else a.


Record StockData : Type := {
  symbol : string;
  current_price : float;
  previous_close : float;
  premarket_price : option float;
  premarket_volume : Z;
  regular_volume : Z;
  avg_volume : float;
  gap_percent : float
}.

Record StrategySignal : Type := {
  sig_symbol : string;
  strategy_name : string;
  signal_type : SignalType;
  confidence : float;
  entry_price : float;
  stop_loss : float;
  take_profit : float;
  risk_reward_ratio : float
}.

(** The configuration fields the evaluators read. *)
Record TradingConfig : Type := {
  volume_threshold_multiplier : float;
  gap_threshold_percent : float
}.

Definition trading_config : TradingConfig := {|
  volume_threshold_multiplier := 2.0;
  gap_threshold_percent := 3.0
|}.

Definition try_or_none {A} (body : res (option A)) : option A :=
  match body with
  | Ok r => r
  | Raise _ => None
  end.





(** [stock_data.premarket_price or current_price]: [None] and a price equal
    to zero are falsy, a NaN is not. *)
Definition premarket_price_or_current (stock_data : StockData) : float :=
  match premarket_price stock_data with
  | Some p => if PrimFloat.eqb p 0 then current_price stock_data else p
  | None => current_price stock_data
  end.







End Binary64.

(** ** Predicates and scenarios used in the statements *)

(** What every signal of an evaluator satisfies. *)
Definition signal_sound (stock_data : StockData) (s : StrategySignal) : Prop :=
  entry_price s = current_price stock_data
  /\ ~ current_price stock_data == 0
  /\ 0 < risk_reward_ratio s
  /\ ~ entry_price s == stop_loss s.

(** A snapshot that gapped up 5% on 2.5 times its average volume. *)
Definition scenario_a : StockData := {|
  symbol := "AAA";
  current_price := 105;
  previous_close := 100;
  premarket_price := None;
  premarket_volume := 500;
  regular_volume := 2000;
  avg_volume := 1000;
  gap_percent := 5.0
|}.

Definition scenario_c : StockData := {|
  symbol := "CCC";
  current_price := 50;
  previous_close := 0;
  premarket_price := Some 52;
  premarket_volume := 1000;
  regular_volume := 0;
  avg_volume := 10000;
  gap_percent := 0
|}.

(** A 5% gap with no volume baseline. *)
Definition gap_without_baseline : StockData := {|
  symbol := "NOB";
  current_price := 105;
  previous_close := 100;
  premarket_price := None;
  premarket_volume := 500;
  regular_volume := 2000;
  avg_volume := 0;
  gap_percent := 5.0
|}.

Definition lenient_config : TradingConfig := {|
  max_risk_per_trade := 0.02;
  min_risk_reward_ratio := 2.0;
  max_position_size := 0.10;
  volume_threshold_multiplier := 1.0;
  gap_threshold_percent := 3.0;
  strategy_weights := strategy_weights trading_config
|}.

(** The signal of scenario B: entry at 100, stop at 97. *)
Definition signal_b : StrategySignal := {|
  sig_symbol := "BBB";
  strategy_name := GapMomentumStrategy.name;
  signal_type := BUY;
  confidence := 0.5;
  entry_price := 100;
  stop_loss := 97;
  take_profit := 106;
  risk_reward_ratio := 2
|}.

Definition snapshot_b : StockData := {|
  symbol := "BBB";
  current_price := 100;
  previous_close := 95;
  premarket_price := None;
  premarket_volume := 0;
  regular_volume := 3000;
  avg_volume := 1000;
  gap_percent := 5.0
|}.

(** A 5% gap down on four times the average volume: Volume Breakout sells
    short at 100 with the stop at 104 and the target at 92. *)
Definition sell_breakout : StockData := {|
  symbol := "SSS";
  current_price := 100;
  previous_close := 105;
  premarket_price := None;
  premarket_volume := 0;
  regular_volume := 4000;
  avg_volume := 1000;
  gap_percent := - 5.0
|}.

(** Two sizing results agree: the same exception, or the same [shares],
    [position_value] and [risk_amount]. *)
Definition same_sizing (a b : res PositionInfo) : Prop :=
  match a, b with
  | Ok x, Ok y =>
      shares x = shares y
      /\ position_value x = position_value y
      /\ risk_amount x = risk_amount y
  | Raise e, Raise e' => e = e'
  | _, _ => False
  end.

Definition zero_sized (a : res PositionInfo) : Prop :=
  match a with
  | Ok x => shares x = 0%Z /\ position_value x = 0 /\ risk_amount x = 0
  | Raise _ => False
  end.

(** The order of the reverse sort, and the test for one key value. *)
Definition before {A} (key : A -> Q) (x y : A) : Prop := key y <= key x.

Definition has_key {A} (key : A -> Q) (k : Q) (x : A) : bool :=
  eqb (key x) k.

(** Two candidates of one instrument with the same weighted score under
    the default weights: 0.45 * 0.4 and 0.6 * 0.3. *)
Definition tied_gap : StrategySignal := {|
  sig_symbol := "TIE";
  strategy_name := GapMomentumStrategy.name;
  signal_type := BUY;
  confidence := 0.45;
  entry_price := 100;
  stop_loss := 97;
  take_profit := 106;
  risk_reward_ratio := 2
|}.

Definition tied_volume : StrategySignal := {|
  sig_symbol := "TIE";
  strategy_name := VolumeBreakoutStrategy.name;
  signal_type := BUY;
  confidence := 0.6;
  entry_price := 100;
  stop_loss := 96;
  take_profit := 108;
  risk_reward_ratio := 2
|}.

(** A snapshot that moved nowhere: no evaluator triggers on it. *)
Definition flat_snapshot : StockData := {|
  symbol := "FLT";
  current_price := 100;
  previous_close := 100;
  premarket_price := None;
  premarket_volume := 0;
  regular_volume := 1000;
  avg_volume := 1000;
  gap_percent := 0
|}.

(** The selections of the universe, none of which passes the final
    filters. *)
Definition no_valid_selection (cfg : TradingConfig)
  (stock_data : list (string * StockData)) : Prop :=
  exists all,
    SignalsBot.all_signals cfg stock_data = Ok all
    /\ List.filter (SignalsBot.is_valid cfg) all = [].

(** An empty result: no signal, every count zero, and a reason. *)
Definition empty_with_reason (r : Result) : Prop :=
  signals r = []
  /\ total_stocks_analyzed (summary r) = 0%nat
  /\ signals_generated (summary r) = 0%nat
  /\ exists reason, error (summary r) = Some reason.

(** A sized selection whose dictionary has every key the report reads. *)
Definition full_info (e : SignalsBot.Entry) : Prop :=
  exists percent profit loss,
    position_percent e.2 = Some percent
    /\ potential_profit e.2 = Some profit
    /\ potential_loss e.2 = Some loss.

(** A signal of type [ty] entered at the current price with the stop at
    [a] times and the target at [b] times that price. *)
Definition levels (d : StockData) (s : StrategySignal) (ty : SignalType)
  (a b : Q) : Prop :=
  signal_type s = ty
  /\ entry_price s = current_price d
  /\ stop_loss s = current_price d * a
  /\ take_profit s = current_price d * b.

(** What the loop of [run_analysis] records for a snapshot: the selected
    candidate of that snapshot and its sizing. *)
Definition selected_entry (cfg : TradingConfig) (e : SignalsBot.Entry)
  : Prop :=
  e.1.1 ∈ StrategyManager.analyze_stock cfg e.1.2
  /\ StrategyManager.get_best_signal cfg
       (StrategyManager.analyze_stock cfg e.1.2) = Some e.1.1
  /\ SignalsBot._calculate_position_info cfg e.1.1 e.1.2 = Ok e.2.

(** A reported dictionary carries the fields of its selection. *)
Definition reports (e : SignalsBot.Entry) (sd : SignalDict) : Prop :=
  sd_symbol sd = sig_symbol e.1.1
  /\ sd_strategy sd = strategy_name e.1.1
  /\ sd_signal_type sd = signal_type e.1.1
  /\ ps_shares (sd_position_sizing sd) = shares e.2.

(** The criteria of [filter_stocks_by_criteria], as a proposition. *)
Definition criteria (fc : FetchConfig) (data : StockData) : Prop :=
  min_price fc <= current_price data
  /\ current_price data <= max_price fc
  /\ (regular_volume data <> 0%Z \/ premarket_volume data <> 0%Z)
  /\ 1.0 <= Qabs (gap_percent data).

(** Two snapshots that differ at most in their premarket fields. *)
Definition same_basics (a b : StockData) : Prop :=
  symbol a = symbol b
  /\ current_price a = current_price b
  /\ previous_close a = previous_close b
  /\ regular_volume a = regular_volume b
  /\ avg_volume a = avg_volume b
  /\ gap_percent a = gap_percent b.

(** A quote of a failed request: the empty dictionary. *)
Definition failed_quote : PremarketQuote :=
  {| quote_price := None; quote_volume := None |}.

(** What one quote does to one entry of [results]. *)
Definition apply_quote (sym : string) (pm_data : PremarketQuote)
  (kv : string * StockData) : string * StockData :=
  if String.eqb kv.1 sym
  then (kv.1, PremarketDataFetcher.set_premarket pm_data kv.2)
  else kv.

(** A snapshot that already carries premarket figures. *)
Definition with_premarket : StockData := {|
  symbol := "PMK";
  current_price := 50;
  previous_close := 48;
  premarket_price := Some 51;
  premarket_volume := 1200;
  regular_volume := 9000;
  avg_volume := 10000;
  gap_percent := 4.0
|}.

(** The prices far from the limits of binary64: from 1e-300 to 1e300. *)
Definition price_floor : Q := 1 # (10 ^ 300).
Definition price_ceiling : Q := inject_Z (10 ^ 300).

Definition in_price_range (d : StockData) : Prop :=
  price_floor <= current_price d /\ current_price d <= price_ceiling.

(** The room left for the rounding of the float operations: a relative
    1e-9. *)
Definition rounding_slack : Q := 1 + (1 # 1000000000).

(** [x] is within 1e-9 of [v]. *)
Definition near (x v : Q) : Prop := Qabs (x - v) <= 1 # 1000000000.

(** One of the three tests of [filter_stocks_by_criteria] fires. *)
Definition rejected (fc : FetchConfig) (data : StockData) : Prop :=
  current_price data < min_price fc
  \/ max_price fc < current_price data
  \/ (regular_volume data = 0%Z /\ premarket_volume data = 0%Z)
  \/ Qabs (gap_percent data) < 1.0.

(** A 2% gap up on three and a half times the average volume: Volume
    Breakout buys at 100 with confidence 0.7. *)
Definition modest_breakout : StockData := {|
  symbol := "MOD";
  current_price := 100;
  previous_close := 98;
  premarket_price := None;
  premarket_volume := 0;
  regular_volume := 3500;
  avg_volume := 1000;
  gap_percent := 2.0
|}.

(** A second instrument with the figures of [sell_breakout]. *)
Definition sell_breakout_twin : StockData := {|
  symbol := "SST";
  current_price := 100;
  previous_close := 105;
  premarket_price := None;
  premarket_volume := 0;
  regular_volume := 4000;
  avg_volume := 1000;
  gap_percent := - 5.0
|}.

(** The default configuration with a minimum reward/risk ratio of 3, and
    with one of 1. *)
Definition strict_ratio_config : TradingConfig := {|
  max_risk_per_trade := 0.02;
  min_risk_reward_ratio := 3.0;
  max_position_size := 0.10;
  volume_threshold_multiplier := 2.0;
  gap_threshold_percent := 3.0;
  strategy_weights := strategy_weights trading_config
|}.

Definition loose_ratio_config : TradingConfig := {|
  max_risk_per_trade := 0.02;
  min_risk_reward_ratio := 1.0;
  max_position_size := 0.10;
  volume_threshold_multiplier := 2.0;
  gap_threshold_percent := 3.0;
  strategy_weights := strategy_weights trading_config
|}.

(** [x] is at most [b], with room for the rounding of the float
    operations: a relative 1e-9 and an absolute 1e-300. *)
Definition within_rounding (x b : Q) : Prop :=
  x <= b * rounding_slack + price_floor.

(** A signal the sizer is meant for: the entry price lies between 1e-300
    and 1e300 and the stop is no further from the entry than the entry
    itself. *)
Definition sizable (s : StrategySignal) : Prop :=
  price_floor <= entry_price s /\ entry_price s <= price_ceiling
  /\ Qabs (entry_price s - stop_loss s) <= entry_price s.

(** A fraction of the account: a number between 0 and 1. *)
Definition is_fraction (x : Q) : Prop := 0 <= x /\ x <= 1.

(** * Properties *)

(** ** Tests and arithmetic *)

Lemma ltb_lt (x y : Q) : ltb x y = true <-> x < y.
Proof.
  unfold ltb. rewrite negb_true_iff, <- not_true_iff_false, Qle_bool_iff.
  split; [apply Qnot_le_lt | apply Qlt_not_le].
Qed.

Lemma ltb_ge (x y : Q) : ltb x y = false <-> y <= x.
Proof.
  unfold ltb. rewrite negb_false_iff. apply Qle_bool_iff.
Qed.

Lemma leb_le (x y : Q) : leb x y = true <-> x <= y.
Proof. apply Qle_bool_iff. Qed.

Lemma leb_gt (x y : Q) : leb x y = false <-> y < x.
Proof.
  unfold leb. rewrite <- not_true_iff_false, Qle_bool_iff.
  split; [apply Qnot_le_lt | apply Qlt_not_le].
Qed.

Lemma eqb_eq (x y : Q) : eqb x y = true <-> x == y.
Proof. apply Qeq_bool_iff. Qed.

Lemma eqb_neq (x y : Q) : eqb x y = false <-> ~ x == y.
Proof.
  unfold eqb. rewrite <- not_true_iff_false, Qeq_bool_iff. tauto.
Qed.

Lemma div_Ok (x y r : Q) : div x y = Ok r -> ~ y == 0 /\ r = x / y.
Proof.
  unfold div. destruct (Qeq_bool y 0) eqn:E; [discriminate |].
  intros [= <-]. split; [| reflexivity].
  now apply eqb_neq.
Qed.

Lemma div_nonzero (x y : Q) : ~ y == 0 -> div x y = Ok (x / y).
Proof.
  intros H. unfold div. apply eqb_neq in H. unfold eqb in H. now rewrite H.
Qed.

Lemma square_pos (p : Q) : ~ p == 0 -> 0 < p * p.
Proof.
  intros H. destruct (Qlt_le_dec 0 p) as [Hp | Hp].
  - rewrite <- (Qmult_0_l p). now apply Qmult_lt_compat_r.
  - assert (Hn : 0 < - p).
    { apply Qle_lt_or_eq in Hp as [Hp | Hp]; [| contradiction].
      rewrite <- (Qplus_lt_l _ _ p). ring_simplify. exact Hp. }
    assert (E : p * p == (- p) * (- p)) by ring.
    rewrite E, <- (Qmult_0_l (- p)). now apply Qmult_lt_compat_r.
Qed.

(** A quotient has the sign of the product. *)
Lemma quotient_pos (a b : Q) : 0 < a * b -> 0 < a / b.
Proof.
  intros H.
  assert (Hb : ~ b == 0).
  { intros E. rewrite E, Qmult_0_r in H. now apply Qlt_irrefl in H. }
  assert (E : a / b == (a * b) / (b * b)) by (field; auto).
  rewrite E. apply Qlt_shift_div_l; [now apply square_pos |].
  now rewrite Qmult_0_l.
Qed.

Lemma scaled_square_pos (c p : Q) : 0 < c -> ~ p == 0 -> 0 < c * (p * p).
Proof.
  intros Hc Hp. rewrite <- (Qmult_0_l (p * p)).
  apply Qmult_lt_compat_r; [now apply square_pos | exact Hc].
Qed.

Lemma Qabs_pos (x : Q) : ~ x == 0 -> 0 < Qabs x.
Proof.
  intros H. apply Qabs_case; intros Hx.
  - apply Qle_lt_or_eq in Hx as [Hx | Hx]; [exact Hx |].
    now symmetry in Hx.
  - apply Qle_lt_or_eq in Hx as [Hx | Hx]; [| contradiction].
    rewrite <- (Qplus_lt_l _ _ x). ring_simplify. exact Hx.
Qed.

Lemma Qabs_zero (x : Q) : Qabs x == 0 -> x == 0.
Proof.
  intros H. destruct (Qeq_dec x 0) as [E | E]; [exact E |].
  apply Qabs_pos in E. rewrite H in E. now apply Qlt_irrefl in E.
Qed.

(** ** The evaluators *)

(** Stop at [price * a], target at [price * b], on the same side for a long
    trade: once the division went through, the price is not zero, the ratio
    is positive and the stop differs from the entry. *)
Lemma levels_sound (p a b : Q) :
  a < 1 -> 1 < b -> Qeq_bool (p - p * a) 0 = false ->
  ~ p == 0 /\ 0 < (p * b - p) / (p - p * a) /\ ~ p == p * a.
Proof.
  intros Ha Hb H. apply eqb_neq in H.
  assert (Hp : ~ p == 0).
  { intros E. apply H. rewrite E. ring. }
  split; [exact Hp |]. split.
  - apply quotient_pos.
    assert (E : (p * b - p) * (p - p * a) == ((b - 1) * (1 - a)) * (p * p))
      by ring.
    rewrite E. apply scaled_square_pos; [| exact Hp].
    apply Qmult_lt_0_compat.
    + rewrite <- (Qplus_lt_l _ _ 1). ring_simplify. exact Hb.
    + rewrite <- (Qplus_lt_l _ _ a). ring_simplify. exact Ha.
  - intros E. apply H. rewrite <- E. ring.
Qed.

(** The same with the distances taken in absolute value, for a stop and a
    target on either side. *)
Lemma abs_levels_sound (p a b : Q) :
  ~ b == 1 -> Qeq_bool (Qabs (p - p * a)) 0 = false ->
  ~ p == 0 /\ 0 < Qabs (p * b - p) / Qabs (p - p * a) /\ ~ p == p * a.
Proof.
  intros Hb H. apply eqb_neq in H.
  assert (Hp : ~ p == 0).
  { intros E. apply H. rewrite E. reflexivity. }
  assert (Hs : ~ p == p * a).
  { intros E. apply H. rewrite <- E.
    assert (E0 : p - p == 0) by ring. now rewrite E0. }
  split; [exact Hp |]. split; [| exact Hs].
  apply quotient_pos. apply Qmult_lt_0_compat; apply Qabs_pos.
  - assert (E : p * b - p == p * (b - 1)) by ring. rewrite E.
    intros E1. apply Qmult_integral in E1 as [E1 | E1]; [now apply Hp |].
    apply Hb. rewrite <- (Qplus_inj_r _ _ (- (1))). rewrite E1. ring.
  - intros E. apply Hs. rewrite <- (Qplus_inj_r _ _ (- (p * a))).
    rewrite E. ring.
Qed.

(** Case analysis on every test a computation takes. *)
Ltac split_tests H :=
  unfold try_or_none, mbind, res_bind, Py.bind, div in H;
  cbv beta iota zeta in H;
  repeat match type of H with
    | context [if ?b then _ else _] =>
        destruct b eqn:?; cbv beta iota zeta in H
    end.

Ltac open_body H :=
  split_tests H; try discriminate H; apply (inj Some) in H; subst.

Ltac read_fields :=
  lazy beta iota zeta
    delta [entry_price stop_loss take_profit risk_reward_ratio confidence
           signal_type strategy_name sig_symbol].

Lemma gap_momentum_sound cfg d s :
  GapMomentumStrategy.analyze cfg d = Some s -> signal_sound d s.
Proof.
  intros H.
  unfold GapMomentumStrategy.analyze, GapMomentumStrategy.analyze_body in H.
  open_body H; unfold signal_sound; read_fields;
    (split; [reflexivity | now apply levels_sound]).
Qed.

Lemma volume_breakout_sound cfg d s :
  VolumeBreakoutStrategy.analyze cfg d = Some s -> signal_sound d s.
Proof.
  intros H.
  unfold VolumeBreakoutStrategy.analyze,
    VolumeBreakoutStrategy.analyze_body in H.
  open_body H; unfold signal_sound; read_fields;
    (split; [reflexivity | now apply abs_levels_sound]).
Qed.

Lemma premarket_momentum_sound cfg d s :
  PremarketMomentumStrategy.analyze cfg d = Some s -> signal_sound d s.
Proof.
  intros H.
  unfold PremarketMomentumStrategy.analyze,
    PremarketMomentumStrategy.analyze_body in H.
  open_body H; unfold signal_sound; read_fields;
    (split; [reflexivity | now apply levels_sound]).
Qed.

Lemma strategies_sound cfg d s strategy :
  strategy ∈ StrategyManager.strategies ->
  analyze strategy cfg d = Some s -> signal_sound d s.
Proof.
  unfold StrategyManager.strategies. intros Hin H.
  repeat (apply elem_of_cons in Hin as [-> | Hin]);
    [ now apply (gap_momentum_sound cfg)
    | now apply (volume_breakout_sound cfg)
    | now apply (premarket_momentum_sound cfg)
    | now apply elem_of_nil in Hin ].
Qed.

(** C7: with a previous close of zero, or below zero, the Premarket
    Momentum evaluator leaves through its guard: the body of [analyze]
    returns [None] without raising, so the division by the previous close is
    not reached. *)
Theorem premarket_requires_previous_close cfg d :
  previous_close d <= 0 ->
  PremarketMomentumStrategy.analyze_body cfg d = Ok None
  /\ PremarketMomentumStrategy.analyze cfg d = None.
Proof.
  intros H. apply ltb_ge in H.
  unfold PremarketMomentumStrategy.analyze,
    PremarketMomentumStrategy.analyze_body.
  rewrite H. split; reflexivity.
Qed.

Lemma premarket_requires_previous_close_witness :
  PremarketMomentumStrategy.analyze_body trading_config scenario_c = Ok None
  /\ PremarketMomentumStrategy.analyze trading_config scenario_c = None.
Proof.
  apply (premarket_requires_previous_close trading_config scenario_c).
  vm_compute. discriminate.
Defined.

(** C8 as stated fails: under the default configuration (multiplier 2.0) a
    5% gap without a volume baseline gets no signal, because the ratio 1.0
    is still compared with the multiplier. *)
Lemma gap_momentum_zero_baseline_rejected :
  ~ (forall cfg d,
       avg_volume d == 0 ->
       gap_threshold_percent cfg <= Qabs (gap_percent d) ->
       exists s, GapMomentumStrategy.analyze cfg d = Some s).
Proof.
  intros H.
  destruct (H trading_config gap_without_baseline) as [s Hs].
  - reflexivity.
  - vm_compute. discriminate.
  - vm_compute in Hs. discriminate Hs.
Qed.

Lemma gap_branch (thr gap : Q) :
  thr <= Qabs gap -> leb thr gap = false -> leb gap (- thr) = true.
Proof.
  intros Habs Hlt. apply leb_gt in Hlt. apply leb_le.
  revert Habs. apply Qabs_case; intros Hs Habs.
  - exfalso. apply (Qlt_irrefl gap). now apply Qlt_le_trans with thr.
  - rewrite <- (Qopp_involutive gap). now apply Qopp_le_compat.
Qed.

(** C8, amended: without a volume baseline the ratio is 1.0 in the trigger
    and in the confidence, and the trigger still compares it with the
    multiplier.  A gap beyond the threshold on a non-zero price gets a
    signal, with the confidence of ratio 1.0, when the multiplier is at most
    1.0, and no signal when the multiplier is larger. *)
Theorem gap_momentum_zero_baseline cfg d :
  avg_volume d == 0 ->
  gap_threshold_percent cfg <= Qabs (gap_percent d) ->
  ~ current_price d == 0 ->
  (volume_threshold_multiplier cfg <= 1 ->
   exists s, GapMomentumStrategy.analyze cfg d = Some s
     /\ (confidence s = min 0.9 ((gap_percent d / 10.0) * (1 / 3.0))
         \/ confidence s
            = min 0.8 ((Qabs (gap_percent d) / 15.0) * (1 / 3.0))))
  /\ (1 < volume_threshold_multiplier cfg ->
      GapMomentumStrategy.analyze cfg d = None).
Proof.
  intros Hav Hgap Hp.
  assert (Hno : ltb 0 (avg_volume d) = false).
  { apply ltb_ge. rewrite Hav. apply Qle_refl. }
  assert (Hup : div (current_price d * 1.06 - current_price d)
                    (current_price d - current_price d * 0.97)
                = Ok ((current_price d * 1.06 - current_price d)
                      / (current_price d - current_price d * 0.97))).
  { apply div_nonzero. intros E. apply Hp.
    assert (E' : current_price d
                 == (current_price d - current_price d * 0.97) * (100 # 3))
      by ring.
    rewrite E', E. reflexivity. }
  assert (Hdown : div (current_price d * 1.08 - current_price d)
                      (current_price d - current_price d * 0.95)
                  = Ok ((current_price d * 1.08 - current_price d)
                        / (current_price d - current_price d * 0.95))).
  { apply div_nonzero. intros E. apply Hp.
    assert (E' : current_price d
                 == (current_price d - current_price d * 0.95) * 20)
      by ring.
    rewrite E', E. reflexivity. }
  unfold GapMomentumStrategy.analyze, GapMomentumStrategy.analyze_body.
  rewrite Hno. unfold try_or_none, mbind, res_bind, Py.bind.
  cbv beta iota zeta.
  split; intros Hm.
  - apply leb_le in Hm. rewrite Hm.
    destruct (leb (gap_threshold_percent cfg) (gap_percent d)) eqn:Hb.
    + rewrite Hup. eexists. split; [reflexivity |]. left. reflexivity.
    + rewrite (gap_branch _ _ Hgap Hb), Hdown.
      eexists. split; [reflexivity |]. right. reflexivity.
  - apply leb_gt in Hm. rewrite Hm.
    destruct (leb (gap_threshold_percent cfg) (gap_percent d)) eqn:Hb;
      [reflexivity |].
    now rewrite (gap_branch _ _ Hgap Hb).
Qed.

Lemma gap_momentum_zero_baseline_witness :
  (exists s, GapMomentumStrategy.analyze lenient_config gap_without_baseline
             = Some s)
  /\ GapMomentumStrategy.analyze trading_config gap_without_baseline = None.
Proof.
  split.
  - destruct (gap_momentum_zero_baseline lenient_config gap_without_baseline)
      as [Hemit _].
    + reflexivity.
    + vm_compute. discriminate.
    + vm_compute. discriminate.
    + destruct Hemit as (s & Hs & _).
      * vm_compute. discriminate.
      * exists s. exact Hs.
  - apply (gap_momentum_zero_baseline trading_config gap_without_baseline).
    + reflexivity.
    + vm_compute. discriminate.
    + vm_compute. discriminate.
    + vm_compute. reflexivity.
Defined.

Lemma min_second (a b : Q) : b < a -> min a b = b.
Proof. intros H. unfold min. apply ltb_lt in H. now rewrite H. Qed.

(** C9: a snapshot with a 5% gap and a volume ratio of 2.5 on a positive
    average volume, under a gap threshold of 3.0 and a volume multiplier of
    2.0, gets a BUY signal from Gap Momentum at the current price, with the
    stop at 0.97 and the target at 1.06 times the price, and confidence
    [min(0.9, (5/10) * (2.5/3))], which is 5/12, within 0.001 of 0.417. *)
Theorem gap_momentum_scenario_a cfg d :
  gap_percent d == 5.0 ->
  0 < avg_volume d ->
  inject_Z (regular_volume d + premarket_volume d) / avg_volume d == 2.5 ->
  gap_threshold_percent cfg == 3.0 ->
  volume_threshold_multiplier cfg == 2.0 ->
  ~ current_price d == 0 ->
  exists s,
    GapMomentumStrategy.analyze cfg d = Some s
    /\ signal_type s = BUY
    /\ entry_price s = current_price d
    /\ stop_loss s = current_price d * 0.97
    /\ take_profit s = current_price d * 1.06
    /\ confidence s == min 0.9 ((5.0 / 10) * (2.5 / 3))
    /\ confidence s == 5 # 12
    /\ Qabs (confidence s - 0.417) < 0.001.
Proof.
  intros Hgap Hav Hratio Hthr Hmul Hp.
  assert (Hvol : ltb 0 (avg_volume d) = true) by now apply ltb_lt.
  assert (Hnz : ~ avg_volume d == 0).
  { intros E. rewrite E in Hav. now apply Qlt_irrefl in Hav. }
  assert (Hrr : div (current_price d * 1.06 - current_price d)
                    (current_price d - current_price d * 0.97)
                = Ok ((current_price d * 1.06 - current_price d)
                      / (current_price d - current_price d * 0.97))).
  { apply div_nonzero. intros E. apply Hp.
    assert (E' : current_price d
                 == (current_price d - current_price d * 0.97) * (100 # 3))
      by ring.
    rewrite E', E. reflexivity. }
  assert (Hconf : gap_percent d / 10.0
                  * (inject_Z (regular_volume d + premarket_volume d)
                     / avg_volume d / 3.0) == 5 # 12).
  { rewrite Hgap, Hratio. reflexivity. }
  unfold GapMomentumStrategy.analyze, GapMomentumStrategy.analyze_body.
  rewrite Hvol, (div_nonzero _ _ Hnz).
  unfold try_or_none, mbind, res_bind, Py.bind. cbv beta iota zeta.
  assert (Hb1 : leb (gap_threshold_percent cfg) (gap_percent d) = true).
  { apply leb_le. rewrite Hthr, Hgap. discriminate. }
  assert (Hb2 : leb (volume_threshold_multiplier cfg)
                    (inject_Z (regular_volume d + premarket_volume d)
                     / avg_volume d) = true).
  { apply leb_le. rewrite Hmul, Hratio. discriminate. }
  rewrite Hb1, Hb2, Hrr.
  eexists. split; [reflexivity |]. read_fields.
  rewrite min_second by (rewrite Hconf; reflexivity).
  repeat split; try reflexivity.
  - rewrite Hconf. reflexivity.
  - exact Hconf.
  - rewrite Hconf. reflexivity.
Qed.

Lemma gap_momentum_scenario_a_witness :
  exists s,
    GapMomentumStrategy.analyze trading_config scenario_a = Some s
    /\ signal_type s = BUY
    /\ stop_loss s == 101.85
    /\ take_profit s == 111.3
    /\ confidence s == 5 # 12.
Proof.
  destruct (gap_momentum_scenario_a trading_config scenario_a)
    as (s & Hs & Hty & _ & Hstop & Htarget & _ & Hconf & _).
  - reflexivity.
  - reflexivity.
  - reflexivity.
  - reflexivity.
  - reflexivity.
  - vm_compute. discriminate.
  - exists s. rewrite Hstop, Htarget. repeat split; try assumption;
      reflexivity.
Defined.

(** ** Position sizing *)

Lemma int_floor (q : Q) : 0 <= q -> int q = Qfloor q.
Proof.
  destruct q as [n d]. unfold Qle, int, Qfloor. simpl. intros H.
  apply Z.quot_div_nonneg; lia.
Qed.

Ltac read_position :=
  lazy beta iota zeta
    delta [shares position_value risk_amount position_percent
           potential_profit potential_loss].

Ltac split_goal_tests :=
  unfold mbind, res_bind, Py.bind, div, eqb;
  cbv beta iota zeta;
  repeat match goal with
    | |- context [if ?b then _ else _] =>
        destruct b eqn:?; cbv beta iota zeta
    end.

(** C1: in scenario B the risk budget of 2000 over a price risk of 3 gives
    666 shares, whose value 66600 exceeds the allowed 10000, and the sizer
    returns 100 shares worth 10000.  In general, whenever the value of the
    risk-budget share count exceeds the allowed position value, both sizing
    functions return the share count of the position-size cap,
    [int(max_position_value / entry_price)], the floor of that quotient
    when it is not negative. *)
Theorem position_cap_overrides_risk_budget :
  (let risk_budget := account_value * max_risk_per_trade trading_config in
   let price_risk := Qabs (entry_price signal_b - stop_loss signal_b) in
   let max_position_value :=
     account_value * max_position_size trading_config in
   risk_budget == 2000 /\ price_risk == 3
   /\ int (risk_budget / price_risk) = 666%Z
   /\ max_position_value == 10000
   /\ inject_Z 666 * entry_price signal_b == 66600
   /\ exists info,
        SignalsBot._calculate_position_info trading_config signal_b snapshot_b
        = Ok info
        /\ shares info = 100%Z
        /\ shares info = Qfloor (10000 / 100)
        /\ position_value info == 10000)
  /\ (forall cfg signal d,
        let risk_budget := account_value * max_risk_per_trade cfg in
        let price_risk := Qabs (entry_price signal - stop_loss signal) in
        let max_position_value := account_value * max_position_size cfg in
        ~ price_risk == 0 ->
        ~ entry_price signal == 0 ->
        max_position_value
        < inject_Z (int (risk_budget / price_risk)) * entry_price signal ->
        exists info,
          SignalsBot._calculate_position_info cfg signal d = Ok info
          /\ calculate_position_sizing cfg d (entry_price signal)
               (stop_loss signal)
             = Ok {| shares := shares info;
                     position_value := position_value info;
                     risk_amount := risk_amount info;
                     position_percent := position_percent info;
                     potential_profit := None;
                     potential_loss := None |}
          /\ shares info = int (max_position_value / entry_price signal)
          /\ position_value info
             = inject_Z (shares info) * entry_price signal
          /\ (0 <= max_position_value / entry_price signal ->
              shares info
              = Qfloor (max_position_value / entry_price signal))).
Proof.
  split.
  - cbv zeta. repeat split; try (vm_compute; reflexivity).
    eexists. split; [vm_compute; reflexivity |].
    repeat split; vm_compute; reflexivity.
  - intros cfg signal d risk_budget price_risk max_position_value
      Hrisk Hentry Hcap.
    apply eqb_neq in Hrisk. apply eqb_neq in Hentry. apply ltb_lt in Hcap.
    unfold eqb in Hrisk, Hentry.
    unfold SignalsBot._calculate_position_info, calculate_position_sizing.
    fold risk_budget price_risk max_position_value.
    unfold mbind, res_bind, Py.bind, div, eqb.
    rewrite Hrisk. cbv beta iota zeta. rewrite Hcap, Hentry.
    cbv beta iota zeta.
    eexists. split; [reflexivity |]. read_position.
    repeat split. apply int_floor.
Qed.

Lemma position_cap_overrides_risk_budget_witness :
  exists info,
    SignalsBot._calculate_position_info trading_config signal_b snapshot_b
    = Ok info
    /\ shares info = int (10000 / 100)
    /\ shares info = 100%Z.
Proof.
  destruct position_cap_overrides_risk_budget as [_ Hcap].
  destruct (Hcap trading_config signal_b snapshot_b)
    as (info & Hinfo & _ & Hshares & _).
  - vm_compute. discriminate.
  - vm_compute. discriminate.
  - vm_compute. reflexivity.
  - exists info. split; [exact Hinfo |]. rewrite Hshares.
    split; vm_compute; reflexivity.
Defined.

(** C10: the sizing function of the strategy base class and the one of the
    orchestrator agree on every signal and configuration: they raise the
    same exception or return the same [shares], [position_value] and
    [risk_amount]; when the entry equals the stop both return the
    zero-sized position. *)
Theorem sizing_copies_agree cfg signal d :
  same_sizing
    (calculate_position_sizing cfg d (entry_price signal) (stop_loss signal))
    (SignalsBot._calculate_position_info cfg signal d)
  /\ (entry_price signal == stop_loss signal ->
      zero_sized (calculate_position_sizing cfg d (entry_price signal)
                    (stop_loss signal))
      /\ zero_sized (SignalsBot._calculate_position_info cfg signal d)).
Proof.
  unfold calculate_position_sizing, SignalsBot._calculate_position_info.
  split.
  - split_goal_tests; unfold same_sizing; read_position;
      repeat split; reflexivity.
  - intros E.
    assert (Hz : eqb (Qabs (entry_price signal - stop_loss signal)) 0
                 = true).
    { apply eqb_eq. rewrite E.
      assert (E0 : stop_loss signal - stop_loss signal == 0) by ring.
      rewrite E0. reflexivity. }
    rewrite Hz. unfold zero_sized. read_position. repeat split.
Qed.

(** C2 at a short signal: the snapshot [sell_breakout] is selected with a
    SELL signal (entry 100, stop 104, target 92) and sized at 100 shares;
    the orchestrator reports a potential profit of -800 and a potential
    loss of -400, where shares times the distances are 800 and 400. *)
Theorem short_signal_negative_profit_and_loss :
  exists s info profit loss,
    StrategyManager.get_best_signal trading_config
      (StrategyManager.analyze_stock trading_config sell_breakout) = Some s
    /\ signal_type s = SELL
    /\ SignalsBot._calculate_position_info trading_config s sell_breakout
       = Ok info
    /\ shares info = 100%Z
    /\ potential_profit info = Some profit
    /\ potential_loss info = Some loss
    /\ profit == - 800 /\ loss == - 400
    /\ inject_Z (shares info) * Qabs (take_profit s - entry_price s) == 800
    /\ inject_Z (shares info) * Qabs (entry_price s - stop_loss s) == 400
    /\ exists reported,
         signals (SignalsBot.run_analysis trading_config
                    [("SSS"%string, sell_breakout)]) = [reported]
         /\ ps_potential_profit (sd_position_sizing reported) == - 800
         /\ ps_potential_loss (sd_position_sizing reported) == - 400.
Proof.
  eexists _, _, _, _.
  split; [vm_compute; reflexivity |].
  split; [reflexivity |].
  split; [vm_compute; reflexivity |].
  split; [reflexivity |].
  split; [reflexivity |].
  split; [reflexivity |].
  split; [reflexivity |].
  split; [reflexivity |].
  split; [reflexivity |].
  split; [reflexivity |].
  eexists. split; [vm_compute; reflexivity |].
  split; reflexivity.
Qed.

(** ** The reverse sort *)

Section SortReverse.

Context {A : Type}.
Variable key : A -> Q.

Lemma sort_reverse_cons x l :
  sort_reverse key (x :: l) = insert_reverse key x (sort_reverse key l).
Proof. reflexivity. Qed.

Lemma insert_reverse_perm x l : insert_reverse key x l ≡ₚ x :: l.
Proof.
  induction l as [| y l IH]; simpl; [reflexivity |].
  destruct (ltb (key x) (key y)); [| reflexivity].
  rewrite IH. apply Permutation_swap.
Qed.

Lemma sort_reverse_perm l : sort_reverse key l ≡ₚ l.
Proof.
  induction l as [| x l IH]; simpl; [reflexivity |].
  rewrite insert_reverse_perm. now rewrite IH.
Qed.

Lemma insert_reverse_sorted x l :
  StronglySorted (before key) l -> StronglySorted (before key) (insert_reverse key x l).
Proof.
  induction 1 as [| y l Hl IH Hy]; simpl.
  - repeat constructor.
  - destruct (ltb (key x) (key y)) eqn:E.
    + constructor; [exact IH |].
      rewrite insert_reverse_perm. constructor; [| exact Hy].
      apply ltb_lt in E. now apply Qlt_le_weak.
    + apply ltb_ge in E. constructor; [now constructor |].
      constructor; [exact E |].
      eapply Forall_impl; [exact Hy |].
      intros z Hz. unfold before in *. now apply Qle_trans with (key y).
Qed.

Lemma sort_reverse_sorted l : StronglySorted (before key) (sort_reverse key l).
Proof.
  induction l as [| x l IH]; simpl; [constructor |].
  now apply insert_reverse_sorted.
Qed.

Lemma insert_reverse_stable k x l :
  List.filter (has_key key k) (insert_reverse key x l)
  = List.filter (has_key key k) (x :: l).
Proof.
  induction l as [| y l IH]; [reflexivity |].
  cbn [insert_reverse]. destruct (ltb (key x) (key y)) eqn:E;
    [| reflexivity].
  cbn [List.filter] in *. rewrite IH.
  destruct (has_key key k x) eqn:Hx, (has_key key k y) eqn:Hy; try reflexivity.
  exfalso. unfold has_key in Hx, Hy.
  apply eqb_eq in Hx. apply eqb_eq in Hy. apply ltb_lt in E.
  rewrite Hx, Hy in E. now apply Qlt_irrefl in E.
Qed.

Lemma sort_reverse_stable k l :
  List.filter (has_key key k) (sort_reverse key l) = List.filter (has_key key k) l.
Proof.
  induction l as [| x l IH]; [reflexivity |].
  rewrite sort_reverse_cons, insert_reverse_stable. cbn [List.filter]. now rewrite IH.
Qed.

(** The head of the sorted list is the first element of the input whose
    key is maximal. *)
Lemma sort_reverse_head l :
  l <> [] ->
  exists front best back rest,
    l = front ++ best :: back
    /\ sort_reverse key l = best :: rest
    /\ Forall (fun x => key x < key best) front
    /\ Forall (fun x => key x <= key best) back.
Proof.
  induction l as [| a l IH]; [congruence |]. intros _.
  destruct l as [| b l].
  - exists [], a, [], []. repeat split; constructor.
  - destruct IH as (front & best & back & rest & Hl & Hs & Hf & Hb);
      [congruence |].
    rewrite sort_reverse_cons, Hs. cbn [insert_reverse].
    destruct (ltb (key a) (key best)) eqn:E.
    + apply ltb_lt in E.
      exists (a :: front), best, back, (insert_reverse key a rest).
      rewrite Hl. repeat split; [now constructor | exact Hb].
    + apply ltb_ge in E.
      exists [], a, (b :: l), (best :: rest).
      repeat split; [constructor |].
      rewrite Hl. apply Forall_app. split; [| constructor].
      * eapply Forall_impl; [exact Hf |].
        intros z Hz. apply Qlt_le_weak in Hz.
        now apply Qle_trans with (key best).
      * exact E.
      * eapply Forall_impl; [exact Hb |].
        intros z Hz. now apply Qle_trans with (key best).
Qed.

End SortReverse.

Lemma insert_reverse_map {A B} (f : A -> B) (key : B -> Q) x l :
  insert_reverse key (f x) (map f l)
  = map f (insert_reverse (fun a => key (f a)) x l).
Proof.
  induction l as [| y l IH]; [reflexivity |].
  cbn [map insert_reverse]. destruct (ltb (key (f x)) (key (f y)));
    [| reflexivity].
  cbn [map]. now rewrite IH.
Qed.

Lemma sort_reverse_map {A B} (f : A -> B) (key : B -> Q) l :
  sort_reverse key (map f l) = map f (sort_reverse (fun a => key (f a)) l).
Proof.
  induction l as [| x l IH]; [reflexivity |].
  cbn [map]. rewrite !sort_reverse_cons, IH. apply insert_reverse_map.
Qed.

(** ** Selection within one instrument *)

Lemma strategies_name cfg d s strategy :
  strategy ∈ StrategyManager.strategies ->
  analyze strategy cfg d = Some s -> strategy_name s = name strategy.
Proof.
  unfold StrategyManager.strategies. intros Hin H.
  repeat (apply elem_of_cons in Hin as [-> | Hin]);
    [ | | | now apply elem_of_nil in Hin ];
    cbn [analyze name] in H |- *.
  - unfold GapMomentumStrategy.analyze,
      GapMomentumStrategy.analyze_body in H.
    open_body H; reflexivity.
  - unfold VolumeBreakoutStrategy.analyze,
      VolumeBreakoutStrategy.analyze_body in H.
    open_body H; reflexivity.
  - unfold PremarketMomentumStrategy.analyze,
      PremarketMomentumStrategy.analyze_body in H.
    open_body H; reflexivity.
Qed.

Lemma analyze_step_cases cfg d strategy signals :
  exists added,
    StrategyManager.analyze_step cfg d signals strategy = signals ++ added
    /\ (added = [] \/ exists s, added = [s]
                                /\ analyze strategy cfg d = Some s).
Proof.
  unfold StrategyManager.analyze_step.
  destruct (analyze strategy cfg d) as [s |] eqn:H.
  - destruct (ltb 0.3 (confidence s)),
      (leb (min_risk_reward_ratio cfg) (risk_reward_ratio s)).
    + exists [s]. split; [reflexivity |]. right. now exists s.
    + exists []. split; [now rewrite app_nil_r | now left].
    + exists []. split; [now rewrite app_nil_r | now left].
    + exists []. split; [now rewrite app_nil_r | now left].
  - exists []. split; [now rewrite app_nil_r | now left].
Qed.

(** Every candidate of an instrument comes from a registered evaluator. *)
Lemma analyze_stock_elems cfg d s :
  s ∈ StrategyManager.analyze_stock cfg d ->
  exists strategy,
    strategy ∈ StrategyManager.strategies
    /\ analyze strategy cfg d = Some s.
Proof.
  unfold StrategyManager.analyze_stock.
  assert (G : forall l acc,
             s ∈ foldl (StrategyManager.analyze_step cfg d) acc l ->
             s ∈ acc
             \/ exists strategy,
                  strategy ∈ l /\ analyze strategy cfg d = Some s).
  { induction l as [| st l IH]; intros acc Hs; [now left |].
    cbn [foldl] in Hs. apply IH in Hs as [Hs | (st' & Hin & Hst')].
    - destruct (analyze_step_cases cfg d st acc) as (added & E & Hadd).
      rewrite E in Hs. apply elem_of_app in Hs as [Hs | Hs]; [now left |].
      right. exists st. split; [apply list_elem_of_here |].
      destruct Hadd as [-> | (s' & -> & Hs')].
      + now apply elem_of_nil in Hs.
      + apply list_elem_of_singleton in Hs. now subst s'.
    - right. exists st'. split; [now apply list_elem_of_further | exact Hst']. }
  intros Hs. apply G in Hs as [Hs | Hs]; [now apply elem_of_nil in Hs |].
  exact Hs.
Qed.

Lemma analyze_stock_names cfg d :
  map strategy_name (StrategyManager.analyze_stock cfg d)
    `sublist_of` map name StrategyManager.strategies.
Proof.
  unfold StrategyManager.analyze_stock.
  assert (G : forall l acc,
             (forall st, st ∈ l -> st ∈ StrategyManager.strategies) ->
             exists tail,
               foldl (StrategyManager.analyze_step cfg d) acc l = acc ++ tail
               /\ map strategy_name tail `sublist_of` map name l).
  { induction l as [| st l IH]; intros acc Hl.
    - exists []. split; [now rewrite app_nil_r | constructor].
    - cbn [foldl].
      destruct (analyze_step_cases cfg d st acc) as (added & -> & Hadd).
      destruct (IH (acc ++ added)) as (tail & -> & Htail).
      { intros st' Hst'. apply Hl. now apply list_elem_of_further. }
      exists (added ++ tail). split; [now rewrite app_assoc |].
      cbn [map]. destruct Hadd as [-> | (s & -> & Hs)].
      + now apply sublist_cons.
      + cbn [app map].
        rewrite (strategies_name cfg d s st)
          by (try apply Hl; try apply list_elem_of_here; exact Hs).
        now apply sublist_skip. }
  destruct (G StrategyManager.strategies []) as (tail & -> & Htail);
    [auto |].
  exact Htail.
Qed.

Lemma get_best_signal_first cfg signals :
  signals <> [] ->
  exists front best back,
    signals = front ++ best :: back
    /\ StrategyManager.get_best_signal cfg signals = Some best
    /\ Forall (fun s => StrategyManager.weighted_score cfg s
                        < StrategyManager.weighted_score cfg best) front
    /\ Forall (fun s => StrategyManager.weighted_score cfg s
                        <= StrategyManager.weighted_score cfg best) back.
Proof.
  intros Hne.
  destruct (sort_reverse_head (StrategyManager.weighted_score cfg)
              signals Hne)
    as (front & best & back & rest & Hl & Hs & Hf & Hb).
  exists front, best, back. split; [exact Hl |]. split; [| now split].
  unfold StrategyManager.get_best_signal.
  destruct signals as [| a l]; [congruence |].
  assert (E : sort_reverse fst
                (map (fun signal =>
                        (StrategyManager.weighted_score cfg signal, signal))
                   (a :: l))
              = map (fun signal =>
                       (StrategyManager.weighted_score cfg signal, signal))
                  (sort_reverse (StrategyManager.weighted_score cfg)
                     (a :: l))).
  { apply (sort_reverse_map
             (fun signal => (StrategyManager.weighted_score cfg signal,
                             signal)) fst). }
  rewrite E, Hs. reflexivity.
Qed.

(** C4: for a non-empty candidate list the selector returns the first
    candidate, in list order, whose weighted score is maximal; candidates
    arrive in registration order (Gap Momentum, Volume Breakout, Premarket
    Momentum); the score is the confidence times the weight stored under the
    lower-cased name with spaces turned into underscores, 0.5 when the
    mapping has no such key; for the empty list the selector returns
    nothing. *)
Theorem best_signal_first_maximum cfg :
  StrategyManager.get_best_signal cfg [] = None
  /\ (forall signals,
        signals <> [] ->
        exists front best back,
          signals = front ++ best :: back
          /\ StrategyManager.get_best_signal cfg signals = Some best
          /\ Forall (fun s => StrategyManager.weighted_score cfg s
                              < StrategyManager.weighted_score cfg best)
               front
          /\ Forall (fun s => StrategyManager.weighted_score cfg s
                              <= StrategyManager.weighted_score cfg best)
               back)
  /\ (forall s w,
        strategy_weights cfg
          !! replace " "%char "_"%char (lower (strategy_name s)) = Some w ->
        StrategyManager.weighted_score cfg s = confidence s * w)
  /\ (forall s,
        strategy_weights cfg
          !! replace " "%char "_"%char (lower (strategy_name s)) = None ->
        StrategyManager.weighted_score cfg s = confidence s * 0.5)
  /\ map (fun st => replace " "%char "_"%char (lower (name st)))
       StrategyManager.strategies
     = ["gap_momentum"; "volume_breakout"; "premarket_momentum"]%string
  /\ (forall d,
        map strategy_name (StrategyManager.analyze_stock cfg d)
          `sublist_of`
          ["Gap Momentum"; "Volume Breakout"; "Premarket Momentum"]%string).
Proof.
  split; [reflexivity |].
  split; [apply get_best_signal_first |].
  split.
  { intros s w H. unfold StrategyManager.weighted_score,
      StrategyManager.strategy_weight, StrategyManager.weight_key.
    now rewrite H. }
  split.
  { intros s H. unfold StrategyManager.weighted_score,
      StrategyManager.strategy_weight, StrategyManager.weight_key.
    now rewrite H. }
  split; [reflexivity |].
  intros d. apply (analyze_stock_names cfg d).
Qed.

Lemma best_signal_first_maximum_witness :
  StrategyManager.weighted_score trading_config tied_gap
  == StrategyManager.weighted_score trading_config tied_volume
  /\ exists front back,
       [tied_gap; tied_volume] = front ++ tied_gap :: back
       /\ StrategyManager.get_best_signal trading_config
            [tied_gap; tied_volume] = Some tied_gap.
Proof.
  split; [reflexivity |].
  destruct (best_signal_first_maximum trading_config) as (_ & Hbest & _).
  destruct (Hbest [tied_gap; tied_volume])
    as (front & best & back & Hl & Hget & _); [discriminate |].
  assert (E : best = tied_gap).
  { assert (G : StrategyManager.get_best_signal trading_config
                  [tied_gap; tied_volume] = Some tied_gap)
      by (vm_compute; reflexivity).
    rewrite G in Hget. now injection Hget as <-. }
  subst best. exists front, back. now split.
Defined.

(** ** The run as a whole *)

Lemma get_best_signal_elem cfg signals best :
  StrategyManager.get_best_signal cfg signals = Some best -> best ∈ signals.
Proof.
  intros H. destruct signals as [| a l]; [discriminate |].
  destruct (get_best_signal_first cfg (a :: l))
    as (front & b & back & Hl & Hget & _); [discriminate |].
  rewrite Hget in H. apply (inj Some) in H. subst b.
  rewrite Hl. apply elem_of_app. right. apply list_elem_of_here.
Qed.

Lemma analyze_stock_sound cfg d s :
  s ∈ StrategyManager.analyze_stock cfg d -> signal_sound d s.
Proof.
  intros Hs. apply analyze_stock_elems in Hs as (strategy & Hin & H).
  now apply (strategies_sound cfg d s strategy).
Qed.

(** On a signal of an evaluator, with rational prices, the sizer returns
    and fills in every key. *)
Lemma position_info_sound cfg d s :
  signal_sound d s ->
  exists info percent profit loss,
    SignalsBot._calculate_position_info cfg s d = Ok info
    /\ position_percent info = Some percent
    /\ potential_profit info = Some profit
    /\ potential_loss info = Some loss.
Proof.
  intros (Hentry & Hprice & _ & Hstop).
  assert (Hrisk : Qeq_bool (Qabs (entry_price s - stop_loss s)) 0 = false).
  { apply eqb_neq. intros E. apply Hstop.
    apply Qabs_zero in E.
    rewrite <- (Qplus_inj_r _ _ (- stop_loss s)), E. ring. }
  assert (Hnz : Qeq_bool (entry_price s) 0 = false).
  { apply eqb_neq. now rewrite Hentry. }
  unfold SignalsBot._calculate_position_info.
  unfold mbind, res_bind, Py.bind, div, eqb. rewrite Hrisk, Hnz.
  cbv beta iota zeta.
  destruct (ltb _ _); cbv beta iota zeta;
    eexists _, _, _, _; repeat split.
Qed.

Lemma select_one_total cfg d :
  exists here, SignalsBot.select_one cfg d = Ok here.
Proof.
  unfold SignalsBot.select_one.
  destruct (StrategyManager.analyze_stock cfg d) as [| a l] eqn:E;
    [now exists [] |].
  destruct (StrategyManager.get_best_signal cfg (a :: l)) as [best |] eqn:Hb;
    [| now exists []].
  apply get_best_signal_elem in Hb. rewrite <- E in Hb.
  apply analyze_stock_sound in Hb.
  destruct (position_info_sound cfg d best Hb) as (info & _ & _ & _ & -> & _).
  now eexists.
Qed.

(** With rational prices the loop over the universe returns. *)
Lemma all_signals_total cfg stock_data :
  exists all, SignalsBot.all_signals cfg stock_data = Ok all.
Proof.
  induction stock_data as [| [sym d] rest [later IH]]; [now exists [] |].
  cbn [SignalsBot.all_signals].
  destruct (select_one_total cfg d) as [here ->]. rewrite IH.
  now eexists.
Qed.

(** C5 as stated fails: a universe of one flat snapshot selects nothing,
    and the result counts one analysed stock and carries no reason. *)
Lemma no_valid_selection_has_no_reason :
  ~ (forall cfg stock_data,
       stock_data = [] \/ no_valid_selection cfg stock_data ->
       empty_with_reason (SignalsBot.run_analysis cfg stock_data)).
Proof.
  intros H.
  destruct (H trading_config [("FLT"%string, flat_snapshot)])
    as (_ & Htotal & _).
  - right. exists []. split; vm_compute; reflexivity.
  - vm_compute in Htotal. discriminate Htotal.
Qed.

(** C5, amended: on an empty universe the engine returns the empty result,
    every count zero, with the reason "No stock data available".  On a
    non-empty universe whose selection loop completes and none of whose
    selections passes the final filters it
    returns a result without signals whose summary counts the analysed
    instruments, reports zero for the number of signals and for every
    statistic, and carries no reason. *)
Theorem universe_level_empty_result cfg stock_data :
  (stock_data = [] ->
   SignalsBot.run_analysis cfg stock_data
   = SignalsBot._create_empty_result cfg "No stock data available"
   /\ empty_with_reason (SignalsBot.run_analysis cfg stock_data))
  /\ (stock_data <> [] -> no_valid_selection cfg stock_data ->
      let r := SignalsBot.run_analysis cfg stock_data in
      signals r = []
      /\ signals_generated (summary r) = 0%nat
      /\ total_stocks_analyzed (summary r) = length stock_data
      /\ error (summary r) = None
      /\ exists st,
           stats (summary r) = Some st
           /\ avg_confidence st = 0 /\ avg_risk_reward st = 0
           /\ buy_signals st = 0%nat /\ sell_signals st = 0%nat
           /\ total_risk_amount st == 0 /\ total_position_value st == 0).
Proof.
  split.
  - intros ->. split; [reflexivity |].
    repeat split. now eexists.
  - intros Hne (all & Hall & Hvalid) r. subst r.
    unfold SignalsBot.run_analysis, SignalsBot.run_analysis_body.
    destruct stock_data as [| x rest]; [congruence |].
    rewrite Hall. unfold mbind, res_bind, Py.bind. cbv beta iota.
    unfold SignalsBot.top_signals. rewrite Hvalid.
    cbn [sort_reverse foldr take].
    repeat split. eexists. split; [reflexivity |]. repeat split.
Qed.

Lemma universe_level_empty_result_witness :
  empty_with_reason (SignalsBot.run_analysis trading_config [])
  /\ total_stocks_analyzed
       (summary (SignalsBot.run_analysis trading_config
                   [("FLT"%string, flat_snapshot)])) = 1%nat
  /\ error
       (summary (SignalsBot.run_analysis trading_config
                   [("FLT"%string, flat_snapshot)])) = None.
Proof.
  destruct (universe_level_empty_result trading_config []) as (He & _).
  destruct (universe_level_empty_result trading_config
              [("FLT"%string, flat_snapshot)]) as (_ & Hn).
  split; [now apply He |].
  destruct Hn as (_ & _ & Htotal & Herr & _).
  - discriminate.
  - exists []. split; vm_compute; reflexivity.
  - split; [exact Htotal | exact Herr].
Defined.

Lemma select_one_full cfg d here :
  SignalsBot.select_one cfg d = Ok here -> Forall full_info here.
Proof.
  unfold SignalsBot.select_one.
  destruct (StrategyManager.analyze_stock cfg d) as [| a l] eqn:E.
  { intros [= <-]. constructor. }
  destruct (StrategyManager.get_best_signal cfg (a :: l)) as [best |] eqn:Hb.
  2: { intros [= <-]. constructor. }
  apply get_best_signal_elem in Hb. rewrite <- E in Hb.
  apply analyze_stock_sound in Hb.
  destruct (position_info_sound cfg d best Hb)
    as (info & percent & profit & loss & -> & Hfull).
  unfold mbind, res_bind, Py.bind. intros H.
  assert (E' : here = [(best, d, info)]) by congruence.
  subst here. constructor; [| constructor].
  now exists percent, profit, loss.
Qed.

Lemma all_signals_full cfg stock_data all :
  SignalsBot.all_signals cfg stock_data = Ok all -> Forall full_info all.
Proof.
  revert all. induction stock_data as [| [sym d] rest IH]; intros all.
  { intros [= <-]. constructor. }
  cbn [SignalsBot.all_signals].
  destruct (SignalsBot.select_one cfg d) as [here | e] eqn:Hhere;
    unfold mbind, res_bind, Py.bind; [| discriminate].
  destruct (SignalsBot.all_signals cfg rest) as [later | e] eqn:Hlater;
    [| discriminate].
  intros H. assert (E : all = here ++ later) by congruence. subst all.
  apply Forall_app. split; [now apply (select_one_full cfg d) | now apply IH].
Qed.

Lemma top_signals_full cfg all :
  Forall full_info all -> Forall full_info (SignalsBot.top_signals cfg all).
Proof.
  intros H. unfold SignalsBot.top_signals.
  apply Forall_take. rewrite (sort_reverse_perm SignalsBot.rank_key).
  rewrite Forall_forall in H |- *. intros e He.
  apply H. apply list_elem_of_In in He. apply filter_In in He as [He _].
  now apply list_elem_of_In.
Qed.

(** The report has one dictionary per ranked selection, in order. *)
Lemma signal_dicts_total l :
  Forall full_info l ->
  exists ds,
    SignalsBot.signal_dicts l = Ok ds
    /\ map sd_symbol ds = map (fun e : SignalsBot.Entry => sig_symbol e.1.1) l.
Proof.
  induction 1 as [| [[s d] info] l (percent & profit & loss & Hp & Hg & Hl)
                    _ (ds & IH & Hsym)].
  { now exists []. }
  cbn [SignalsBot.signal_dicts SignalsBot.signal_dict].
  cbn [snd] in Hp, Hg, Hl. rewrite Hp, Hg, Hl, IH.
  unfold mbind, res_bind, Py.bind, getitem. cbv beta iota.
  eexists. split; [reflexivity |].
  cbn [map fst sd_symbol]. now rewrite Hsym.
Qed.

(** * Further properties of the code *)

(** ** Bounds of the sized position *)

Lemma int_nonneg (q : Q) : 0 <= q -> (0 <= int q)%Z.
Proof.
  intros H. rewrite (int_floor q H).
  change 0%Z with (Qfloor 0). now apply Qfloor_resp_le.
Qed.

Lemma int_le (q : Q) : 0 <= q -> inject_Z (int q) <= q.
Proof. intros H. rewrite (int_floor q H). apply Qfloor_le. Qed.

Lemma int_lt_succ (q : Q) : 0 <= q -> q < inject_Z (int q) + 1.
Proof.
  intros H. rewrite (int_floor q H).
  assert (E : inject_Z (Qfloor q) + 1 == inject_Z (Qfloor q + 1)).
  { rewrite inject_Z_plus. reflexivity. }
  rewrite E. apply Qlt_floor.
Qed.

Lemma quotient_nonneg (a b : Q) : 0 <= a -> 0 < b -> 0 <= a / b.
Proof.
  intros Ha Hb. apply Qle_shift_div_l; [exact Hb |].
  now rewrite Qmult_0_l.
Qed.

Lemma Qabs_diff_pos (x y : Q) : ~ x == y -> 0 < Qabs (x - y).
Proof.
  intros H. apply Qabs_pos. intros E. apply H.
  rewrite <- (Qplus_inj_r _ _ (- y)), E. ring.
Qed.

(** The sizer on a positive entry price, a stop away from the entry and
    non-negative risk fractions: what it returns, by case on the cap. *)
Lemma position_info_cases cfg s d :
  0 < entry_price s -> ~ entry_price s == stop_loss s ->
  let risk_budget := account_value * max_risk_per_trade cfg in
  let price_risk := Qabs (entry_price s - stop_loss s) in
  let max_position_value := account_value * max_position_size cfg in
  let shares0 := int (risk_budget / price_risk) in
  exists info,
    SignalsBot._calculate_position_info cfg s d = Ok info
    /\ position_value info = inject_Z (shares info) * entry_price s
    /\ risk_amount info = inject_Z (shares info) * price_risk
    /\ position_percent info
       = Some (position_value info / account_value * 100)
    /\ potential_profit info
       = Some (inject_Z (shares info) * (take_profit s - entry_price s))
    /\ potential_loss info
       = Some (inject_Z (shares info) * (entry_price s - stop_loss s))
    /\ ((inject_Z shares0 * entry_price s <= max_position_value
         /\ shares info = shares0)
        \/ (max_position_value < inject_Z shares0 * entry_price s
            /\ shares info = int (max_position_value / entry_price s))).
Proof.
  intros Hentry Hstop risk_budget price_risk max_position_value shares0.
  assert (Hrisk : Qeq_bool price_risk 0 = false).
  { apply eqb_neq. intros E. apply Qabs_diff_pos in Hstop.
    fold price_risk in Hstop. rewrite E in Hstop.
    now apply Qlt_irrefl in Hstop. }
  assert (Hnz : Qeq_bool (entry_price s) 0 = false).
  { apply eqb_neq. intros E. rewrite E in Hentry.
    now apply Qlt_irrefl in Hentry. }
  unfold SignalsBot._calculate_position_info.
  fold risk_budget price_risk max_position_value.
  unfold mbind, res_bind, Py.bind, div, eqb. rewrite Hrisk, Hnz.
  cbv beta iota zeta. fold shares0.
  destruct (ltb max_position_value (inject_Z shares0 * entry_price s))
    eqn:Hcap; cbv beta iota zeta; eexists;
    (split; [reflexivity |]); read_position; repeat split.
  - right. split; [now apply ltb_lt | reflexivity].
  - left. split; [now apply ltb_ge | reflexivity].
Qed.

(** The share counts behind [position_info_cases]: the risk-budget count is
    not negative and the cap only lowers it. *)
Lemma capped_shares_bounds (risk_budget price_risk max_value entry : Q) :
  0 <= risk_budget -> 0 < price_risk -> 0 <= max_value -> 0 < entry ->
  let shares0 := int (risk_budget / price_risk) in
  let shares1 := int (max_value / entry) in
  (0 <= shares0)%Z
  /\ inject_Z shares0 * price_risk <= risk_budget
  /\ (0 <= shares1)%Z
  /\ inject_Z shares1 * entry <= max_value
  /\ max_value - entry < inject_Z shares1 * entry
  /\ (max_value < inject_Z shares0 * entry -> (shares1 < shares0)%Z).
Proof.
  intros Hb Hr Hm He shares0 shares1.
  assert (Hq0 : 0 <= risk_budget / price_risk)
    by now apply quotient_nonneg.
  assert (Hq1 : 0 <= max_value / entry) by now apply quotient_nonneg.
  assert (He' : ~ entry == 0).
  { intros E. rewrite E in He. now apply Qlt_irrefl in He. }
  assert (Hr' : ~ price_risk == 0).
  { intros E. rewrite E in Hr. now apply Qlt_irrefl in Hr. }
  split; [now apply int_nonneg |]. split.
  { apply Qle_trans with (risk_budget / price_risk * price_risk).
    - apply Qmult_le_compat_r; [now apply int_le | now apply Qlt_le_weak].
    - apply Qle_lteq. right. field. exact Hr'. }
  split; [now apply int_nonneg |]. split.
  { apply Qle_trans with (max_value / entry * entry).
    - apply Qmult_le_compat_r; [now apply int_le | now apply Qlt_le_weak].
    - apply Qle_lteq. right. field. exact He'. }
  split.
  { assert (E : max_value - entry == (max_value / entry - 1) * entry)
      by (field; exact He').
    rewrite E. apply Qmult_lt_compat_r; [exact He |].
    rewrite <- (Qplus_lt_l _ _ 1). ring_simplify.
    pose proof (int_lt_succ _ Hq1) as H. fold shares1 in H.
    ring_simplify in H. exact H. }
  intros Hcap. rewrite Zlt_Qlt.
  apply Qle_lt_trans with (max_value / entry); [now apply int_le |].
  apply Qlt_shift_div_r; [exact He | exact Hcap].
Qed.

Lemma inject_Z_nonneg (z : Z) : (0 <= z)%Z -> 0 <= inject_Z z.
Proof. intros H. change 0 with (inject_Z 0). now rewrite <- Zle_Qle. Qed.

Lemma account_value_pos : 0 < account_value.
Proof. reflexivity. Qed.

Lemma budget_nonneg (fraction : Q) :
  0 <= fraction -> 0 <= account_value * fraction.
Proof.
  intros H. apply Qmult_le_0_compat; [| exact H].
  apply Qlt_le_weak, account_value_pos.
Qed.




(** ** Shape of the evaluators' signals *)

Lemma Qle_0_1 : 0 <= 1.
Proof. discriminate. Qed.

Lemma scaled_product_nonneg (g v c1 c2 : Q) :
  0 < c1 -> 0 < c2 -> 0 <= g -> 0 <= v -> 0 <= g / c1 * (v / c2).
Proof.
  intros H1 H2 Hg Hv. apply Qmult_le_0_compat; now apply quotient_nonneg.
Qed.

Ltac nonneg_from_tests :=
  first
    [ apply Qabs_nonneg
    | apply Qle_0_1
    | match goal with
      | H : leb ?t ?x = true |- 0 <= ?x =>
          apply leb_le in H; apply Qle_trans with t; assumption
      end ].

Lemma gap_momentum_shape cfg d s :
  GapMomentumStrategy.analyze cfg d = Some s ->
  exists a b cap x,
    levels d s BUY a b
    /\ risk_reward_ratio s
       = (current_price d * b - current_price d)
         / (current_price d - current_price d * a)
    /\ confidence s = min cap x
    /\ ((a = 0.97 /\ b = 1.06 /\ cap = 0.9
         /\ gap_threshold_percent cfg <= gap_percent d)
        \/ (a = 0.95 /\ b = 1.08 /\ cap = 0.8
            /\ gap_percent d <= - gap_threshold_percent cfg))
    /\ (0 <= gap_threshold_percent cfg ->
        0 <= volume_threshold_multiplier cfg -> 0 <= x).
Proof.
  intros H.
  unfold GapMomentumStrategy.analyze, GapMomentumStrategy.analyze_body in H.
  open_body H; unfold levels; read_fields;
    eexists _, _, _, _;
    (split; [repeat split |]); (split; [reflexivity |]);
    (split; [reflexivity |]);
    (split;
     [ first [ left; repeat split; now apply leb_le
             | right; repeat split; now apply leb_le ]
     | intros Ht Hm; apply scaled_product_nonneg;
       [reflexivity | reflexivity | nonneg_from_tests | nonneg_from_tests] ]).
Qed.

Lemma volume_breakout_shape cfg d s :
  VolumeBreakoutStrategy.analyze cfg d = Some s ->
  exists ty a b x,
    levels d s ty a b
    /\ risk_reward_ratio s
       = Qabs (current_price d * b - current_price d)
         / Qabs (current_price d - current_price d * a)
    /\ confidence s = min 0.85 x
    /\ ((ty = BUY /\ a = 0.96 /\ b = 1.08 /\ 1.0 < gap_percent d)
        \/ (ty = SELL /\ a = 1.04 /\ b = 0.92 /\ gap_percent d < - 1.0))
    /\ (0 <= volume_threshold_multiplier cfg -> 0 <= x).
Proof.
  intros H.
  unfold VolumeBreakoutStrategy.analyze,
    VolumeBreakoutStrategy.analyze_body in H.
  open_body H; unfold levels; read_fields;
    eexists _, _, _, _;
    (split; [repeat split |]); (split; [reflexivity |]);
    (split; [reflexivity |]);
    (split;
     [ first [ left; repeat split; now apply ltb_lt
             | right; repeat split; now apply ltb_lt ]
     | intros Hm; apply quotient_nonneg; [| reflexivity] ]).
  all: match goal with
       | H : leb ?t ?x = true |- 0 <= ?x =>
           apply leb_le in H; apply Qle_trans with t; [| exact H]
       end.
  all: apply Qmult_le_0_compat; [exact Hm | discriminate].
Qed.

Lemma premarket_momentum_shape cfg d s :
  PremarketMomentumStrategy.analyze cfg d = Some s ->
  exists a b x,
    levels d s BUY a b
    /\ risk_reward_ratio s
       = (current_price d * b - current_price d)
         / (current_price d - current_price d * a)
    /\ confidence s = min 0.8 x
    /\ ((a = 0.97 /\ b = 1.06) \/ (a = 0.94 /\ b = 1.09))
    /\ 0 <= x.
Proof.
  intros H.
  unfold PremarketMomentumStrategy.analyze,
    PremarketMomentumStrategy.analyze_body in H.
  open_body H; unfold levels; read_fields;
    eexists _, _, _;
    (split; [repeat split |]); (split; [reflexivity |]);
    (split; [reflexivity |]);
    (split;
     [ first [ left; split; reflexivity | right; split; reflexivity ]
     | apply Qmult_le_0_compat;
       [ apply quotient_nonneg; [apply Qabs_nonneg | reflexivity] | ] ]).
  all: try apply Qle_0_1.
  all: match goal with
       | H : _ && _ = true |- _ => apply andb_true_iff in H as [Ha Hv]
       end.
  all: apply ltb_lt in Ha; apply Z.ltb_lt in Hv.
  all: apply quotient_nonneg;
    [ apply inject_Z_nonneg; lia
    | apply Qmult_lt_0_compat; [exact Ha | reflexivity] ].
Qed.

Ltac by_strategy Hin H :=
  unfold StrategyManager.strategies in Hin;
  repeat (apply elem_of_cons in Hin as [-> | Hin]);
  [ cbn [analyze name] in H |- *;
    apply gap_momentum_shape in H
      as (a & b & cap & x & Hlev & Hrr & Hconf & Hcase & Hx)
  | cbn [analyze name] in H |- *;
    apply volume_breakout_shape in H
      as (ty & a & b & x & Hlev & Hrr & Hconf & Hcase & Hx)
  | cbn [analyze name] in H |- *;
    apply premarket_momentum_shape in H
      as (a & b & x & Hlev & Hrr & Hconf & Hcase & Hx)
  | now apply elem_of_nil in Hin ].

(** X4: no evaluator emits HOLD; a SELL signal can only come from Volume
    Breakout, and only on a gap below -1%; a Volume Breakout BUY needs a gap
    above 1%; Gap Momentum and Premarket Momentum always buy. *)
Theorem only_volume_breakout_sells cfg d strategy s :
  strategy ∈ StrategyManager.strategies ->
  analyze strategy cfg d = Some s ->
  signal_type s <> HOLD
  /\ (signal_type s = SELL ->
      name strategy = VolumeBreakoutStrategy.name
      /\ gap_percent d < - 1.0)
  /\ (name strategy = VolumeBreakoutStrategy.name -> signal_type s = BUY ->
      1.0 < gap_percent d)
  /\ (name strategy <> VolumeBreakoutStrategy.name -> signal_type s = BUY).
Proof.
  intros Hin H. by_strategy Hin H; destruct Hlev as (Hty & _).
  - rewrite Hty. repeat split; discriminate.
  - destruct Hcase as [(-> & _ & _ & Hgap) | (-> & _ & _ & Hgap)];
      rewrite Hty; repeat split; try discriminate; try congruence;
      intros; exact Hgap.
  - rewrite Hty. repeat split; discriminate.
Qed.

Lemma only_volume_breakout_sells_witness :
  exists s,
    VolumeBreakoutStrategy.analyze trading_config sell_breakout = Some s
    /\ signal_type s = SELL
    /\ gap_percent sell_breakout < - 1.0.
Proof.
  eexists. split; [vm_compute; reflexivity |]. split; [reflexivity |].
  eapply (only_volume_breakout_sells trading_config sell_breakout
            {| name := VolumeBreakoutStrategy.name;
               analyze := VolumeBreakoutStrategy.analyze |}).
  - apply list_elem_of_further, list_elem_of_here.
  - vm_compute. reflexivity.
  - reflexivity.
Defined.

Lemma min_bounds (cap x : Q) :
  0 <= cap -> 0 <= x -> 0 <= min cap x /\ min cap x <= cap.
Proof.
  intros Hc Hx. unfold min. destruct (ltb x cap) eqn:E.
  - apply ltb_lt in E. split; [exact Hx | now apply Qlt_le_weak].
  - split; [exact Hc | apply Qle_refl].
Qed.

(** X5: under a non-negative gap threshold and volume multiplier, the
    confidence of every signal an evaluator returns lies between 0 and 0.9;
    it is at most 0.85 for Volume Breakout and at most 0.8 for Premarket
    Momentum. *)
Theorem evaluator_confidence_range cfg d strategy s :
  0 <= gap_threshold_percent cfg ->
  0 <= volume_threshold_multiplier cfg ->
  strategy ∈ StrategyManager.strategies ->
  analyze strategy cfg d = Some s ->
  0 <= confidence s /\ confidence s <= 0.9
  /\ (name strategy = VolumeBreakoutStrategy.name -> confidence s <= 0.85)
  /\ (name strategy = PremarketMomentumStrategy.name ->
      confidence s <= 0.8).
Proof.
  intros Ht Hm Hin H. by_strategy Hin H; rewrite Hconf.
  1: destruct Hcase as [(_ & _ & -> & _) | (_ & _ & -> & _)].
  all: match goal with
       | |- context [min ?c ?y] =>
           destruct (min_bounds c y) as [H0 H1];
           [discriminate | auto |]
       end.
  all: split; [exact H0 |].
  all: split; [apply Qle_trans with (1 := H1); discriminate |].
  all: split; intros E;
    first [discriminate E | apply Qle_trans with (1 := H1); discriminate].
Qed.

Lemma evaluator_confidence_range_witness :
  exists s,
    GapMomentumStrategy.analyze trading_config scenario_a = Some s
    /\ 0 <= confidence s /\ confidence s <= 0.9.
Proof.
  eexists. split; [vm_compute; reflexivity |].
  edestruct (evaluator_confidence_range trading_config scenario_a
               {| name := GapMomentumStrategy.name;
                  analyze := GapMomentumStrategy.analyze |})
    as (H0 & H1 & _).
  - discriminate.
  - discriminate.
  - apply list_elem_of_here.
  - vm_compute. reflexivity.
  - split; [exact H0 | exact H1].
Defined.

Lemma long_ratio (p a b : Q) :
  ~ p == 0 -> ~ 1 - a == 0 ->
  (p * b - p) / (p - p * a) == (b - 1) / (1 - a).
Proof.
  intros Hp Ha. field. split; [exact Ha |].
  intros E. assert (E' : p * (1 - a) == 0) by (rewrite <- E; ring).
  apply Qmult_integral in E' as [E' | E']; contradiction.
Qed.

Lemma abs_ratio (p a b : Q) :
  ~ p == 0 -> ~ 1 - a == 0 ->
  Qabs (p * b - p) / Qabs (p - p * a) == Qabs (b - 1) / Qabs (1 - a).
Proof.
  intros Hp Ha.
  assert (E1 : p * b - p == p * (b - 1)) by ring.
  assert (E2 : p - p * a == p * (1 - a)) by ring.
  rewrite E1, E2, !Qabs_Qmult. field. split.
  - intros E. now apply Qabs_zero in E.
  - intros E. now apply Qabs_zero in E.
Qed.


Lemma below_price (p a : Q) : 0 < p -> a < 1 -> p * a < p.
Proof.
  intros Hp Ha. rewrite <- (Qmult_1_r p) at 2.
  rewrite !(Qmult_comm p). now apply Qmult_lt_compat_r.
Qed.

Lemma above_price (p b : Q) : 0 < p -> 1 < b -> p < p * b.
Proof.
  intros Hp Hb. rewrite <- (Qmult_1_r p) at 1.
  rewrite !(Qmult_comm p). now apply Qmult_lt_compat_r.
Qed.

(** X7: on a positive current price a BUY signal has its stop below and its
    target above the entry, a SELL signal its target below and its stop
    above the entry; the entry is the current price and the signal carries
    the snapshot's symbol. *)
Theorem signal_levels_ordered cfg d strategy s :
  0 < current_price d ->
  strategy ∈ StrategyManager.strategies ->
  analyze strategy cfg d = Some s ->
  entry_price s = current_price d
  /\ (signal_type s = BUY ->
      stop_loss s < entry_price s /\ entry_price s < take_profit s)
  /\ (signal_type s = SELL ->
      take_profit s < entry_price s /\ entry_price s < stop_loss s).
Proof.
  intros Hp Hin H.
  by_strategy Hin H; destruct Hlev as (Hty & -> & -> & ->);
    (split; [reflexivity |]); rewrite Hty.
  - destruct Hcase as [(-> & -> & _) | (-> & -> & _)];
      (split; [intros _ | discriminate]);
      (split; [now apply below_price | now apply above_price]).
  - destruct Hcase as [(-> & -> & -> & _) | (-> & -> & -> & _)].
    + split; [intros _ | discriminate].
      split; [now apply below_price | now apply above_price].
    + split; [discriminate | intros _].
      split; [now apply below_price | now apply above_price].
  - destruct Hcase as [(-> & ->) | (-> & ->)];
      (split; [intros _ | discriminate]);
      (split; [now apply below_price | now apply above_price]).
Qed.

Lemma signal_levels_ordered_witness :
  exists s,
    VolumeBreakoutStrategy.analyze trading_config sell_breakout = Some s
    /\ take_profit s < entry_price s /\ entry_price s < stop_loss s.
Proof.
  eexists. split; [vm_compute; reflexivity |].
  eapply (signal_levels_ordered trading_config sell_breakout
            {| name := VolumeBreakoutStrategy.name;
               analyze := VolumeBreakoutStrategy.analyze |}).
  - reflexivity.
  - apply list_elem_of_further, list_elem_of_here.
  - vm_compute. reflexivity.
  - reflexivity.
Defined.

Lemma reward_risk_cases cfg d strategy s :
  strategy ∈ StrategyManager.strategies ->
  analyze strategy cfg d = Some s ->
  risk_reward_ratio s == 2 \/ risk_reward_ratio s == 8 # 5
  \/ risk_reward_ratio s == 3 # 2.
Proof.
  intros Hin H.
  destruct (strategies_sound cfg d s strategy Hin H) as (_ & Hp & _).
  by_strategy Hin H; rewrite Hrr.
  - destruct Hcase as [(-> & -> & _) | (-> & -> & _)];
      rewrite long_ratio by (exact Hp || discriminate);
      [left | right; left]; reflexivity.
  - destruct Hcase as [(_ & -> & -> & _) | (_ & -> & -> & _)];
      rewrite abs_ratio by (exact Hp || discriminate); left; reflexivity.
  - destruct Hcase as [(-> & ->) | (-> & ->)];
      rewrite long_ratio by (exact Hp || discriminate);
      [left | right; right]; reflexivity.
Qed.

Lemma evaluator_reward_risk_bounds cfg d strategy s :
  strategy ∈ StrategyManager.strategies ->
  analyze strategy cfg d = Some s ->
  3 # 2 <= risk_reward_ratio s /\ risk_reward_ratio s <= 2.
Proof.
  intros Hin H.
  destruct (reward_risk_cases cfg d strategy s Hin H) as [E | [E | E]];
    rewrite E; split; discriminate.
Qed.

(** ** The registry filter *)

Lemma analyze_step_passed cfg d strategy signals s :
  s ∈ StrategyManager.analyze_step cfg d signals strategy ->
  s ∈ signals
  \/ (analyze strategy cfg d = Some s
      /\ 0.3 < confidence s
      /\ min_risk_reward_ratio cfg <= risk_reward_ratio s).
Proof.
  unfold StrategyManager.analyze_step.
  destruct (analyze strategy cfg d) as [s' |]; [| now left].
  destruct (ltb 0.3 (confidence s')) eqn:Hc; [| now left].
  destruct (leb (min_risk_reward_ratio cfg) (risk_reward_ratio s')) eqn:Hr;
    [| now left].
  intros Hs. apply elem_of_app in Hs as [Hs | Hs]; [now left |].
  apply list_elem_of_singleton in Hs. subst s'. right.
  split; [reflexivity |]. split; [now apply ltb_lt | now apply leb_le].
Qed.

Lemma analyze_stock_passed cfg d s :
  s ∈ StrategyManager.analyze_stock cfg d ->
  exists strategy,
    strategy ∈ StrategyManager.strategies
    /\ analyze strategy cfg d = Some s
    /\ 0.3 < confidence s
    /\ min_risk_reward_ratio cfg <= risk_reward_ratio s.
Proof.
  unfold StrategyManager.analyze_stock.
  assert (G : forall l acc,
             s ∈ foldl (StrategyManager.analyze_step cfg d) acc l ->
             s ∈ acc
             \/ exists strategy,
                  strategy ∈ l
                  /\ analyze strategy cfg d = Some s
                  /\ 0.3 < confidence s
                  /\ min_risk_reward_ratio cfg <= risk_reward_ratio s).
  { induction l as [| st l IH]; intros acc Hs; [now left |].
    cbn [foldl] in Hs. apply IH in Hs as [Hs | (st' & Hin & Hst')].
    - apply analyze_step_passed in Hs as [Hs | Hs]; [now left |].
      right. exists st. split; [apply list_elem_of_here | exact Hs].
    - right. exists st'. split; [now apply list_elem_of_further | exact Hst']. }
  intros Hs. apply G in Hs as [Hs | Hs]; [now apply elem_of_nil in Hs |].
  exact Hs.
Qed.

(** X8: the registry returns at most three candidates, one per evaluator at
    most and in registration order, each with confidence above 0.3 and a
    reward/risk ratio of at least the configured minimum. *)
Theorem analyze_stock_filtered cfg d :
  (length (StrategyManager.analyze_stock cfg d) <= 3)%nat
  /\ map strategy_name (StrategyManager.analyze_stock cfg d)
       `sublist_of` map name StrategyManager.strategies
  /\ Forall (fun s => 0.3 < confidence s
                      /\ min_risk_reward_ratio cfg <= risk_reward_ratio s)
       (StrategyManager.analyze_stock cfg d).
Proof.
  pose proof (analyze_stock_names cfg d) as Hsub.
  split; [| split; [exact Hsub |]].
  - apply sublist_length in Hsub. rewrite length_map in Hsub.
    exact Hsub.
  - apply Forall_forall. intros s Hs.
    apply analyze_stock_passed in Hs as (_ & _ & _ & Hc & Hr). now split.
Qed.

Lemma empty_of_no_elements {A} (l : list A) :
  (forall x, x ∈ l -> False) -> l = [].
Proof.
  destruct l as [| a l]; [reflexivity |]. intros H. exfalso.
  apply (H a). apply list_elem_of_here.
Qed.

(** ** The selections of a run *)

Lemma select_one_entries cfg d here :
  SignalsBot.select_one cfg d = Ok here ->
  here = []
  \/ exists s info, here = [(s, d, info)] /\ selected_entry cfg (s, d, info).
Proof.
  unfold SignalsBot.select_one.
  destruct (StrategyManager.analyze_stock cfg d) as [| a l] eqn:E.
  { intros [= <-]. now left. }
  destruct (StrategyManager.get_best_signal cfg (a :: l)) as [best |] eqn:Hb.
  2: { intros [= <-]. now left. }
  destruct (SignalsBot._calculate_position_info cfg best d)
    as [info | e] eqn:Hinfo; unfold mbind, res_bind, Py.bind;
    [| discriminate].
  intros H. right. exists best, info.
  split; [congruence |]. unfold selected_entry. cbn [fst snd].
  rewrite E. split; [| split; [exact Hb | exact Hinfo]].
  now apply get_best_signal_elem in Hb.
Qed.

Lemma all_signals_entries cfg stock_data all :
  SignalsBot.all_signals cfg stock_data = Ok all ->
  Forall (selected_entry cfg) all
  /\ map (fun e : SignalsBot.Entry => e.1.2) all
       `sublist_of` map snd stock_data.
Proof.
  revert all. induction stock_data as [| [sym d] rest IH]; intros all.
  { intros [= <-]. split; constructor. }
  cbn [SignalsBot.all_signals].
  destruct (SignalsBot.select_one cfg d) as [here | e] eqn:Hhere;
    unfold mbind, res_bind, Py.bind; [| discriminate].
  destruct (SignalsBot.all_signals cfg rest) as [later | e] eqn:Hlater;
    [| discriminate].
  intros H. assert (E : all = here ++ later) by congruence. subst all.
  destruct (IH later eq_refl) as [Hsel Hsub].
  apply select_one_entries in Hhere as [-> | (s & info & -> & Hs)];
    cbn [app map fst snd].
  - split; [exact Hsel | now apply sublist_cons].
  - split; [now constructor | now apply sublist_skip].
Qed.

Lemma selected_entry_passed cfg e :
  selected_entry cfg e ->
  exists strategy,
    strategy ∈ StrategyManager.strategies
    /\ analyze strategy cfg e.1.2 = Some e.1.1
    /\ 0.3 < confidence e.1.1
    /\ min_risk_reward_ratio cfg <= risk_reward_ratio e.1.1.
Proof. intros (Hin & _ & _). now apply analyze_stock_passed. Qed.

(** X10: the reward/risk test of the final filter repeats the registry's:
    on the selections of a run it never rejects, so the final filter keeps
    exactly the selections with confidence of at least 0.4. *)
Theorem final_filter_is_confidence_gate cfg stock_data all :
  SignalsBot.all_signals cfg stock_data = Ok all ->
  Forall (fun e : SignalsBot.Entry =>
            min_risk_reward_ratio cfg <= risk_reward_ratio e.1.1) all
  /\ List.filter (SignalsBot.is_valid cfg) all
     = List.filter (fun e : SignalsBot.Entry => leb 0.4 (confidence e.1.1))
         all.
Proof.
  intros Hall. apply all_signals_entries in Hall as [Hsel _].
  assert (Hrr : Forall (fun e : SignalsBot.Entry =>
                          min_risk_reward_ratio cfg
                          <= risk_reward_ratio e.1.1) all).
  { eapply Forall_impl; [exact Hsel |]. intros e He.
    apply selected_entry_passed in He as (_ & _ & _ & _ & Hr). exact Hr. }
  split; [exact Hrr |].
  apply filter_ext_in. intros e He. unfold SignalsBot.is_valid.
  rewrite Forall_forall in Hrr.
  assert (Hr : leb (min_risk_reward_ratio cfg) (risk_reward_ratio e.1.1)
               = true).
  { apply leb_le, Hrr. now apply list_elem_of_In. }
  rewrite Hr. apply andb_true_r.
Qed.

Lemma final_filter_is_confidence_gate_witness :
  exists all,
    SignalsBot.all_signals trading_config
      [("AAA"%string, scenario_a); ("SSS"%string, sell_breakout)] = Ok all
    /\ List.filter (SignalsBot.is_valid trading_config) all
       = List.filter
           (fun e : SignalsBot.Entry => leb 0.4 (confidence e.1.1)) all.
Proof.
  eexists. split; [vm_compute; reflexivity |].
  eapply (final_filter_is_confidence_gate trading_config
            [("AAA"%string, scenario_a); ("SSS"%string, sell_breakout)]).
  vm_compute. reflexivity.
Defined.

Lemma top_signals_elem cfg all e :
  e ∈ SignalsBot.top_signals cfg all ->
  e ∈ all /\ SignalsBot.is_valid cfg e = true.
Proof.
  unfold SignalsBot.top_signals. intros He.
  apply subseteq_take in He.
  rewrite (sort_reverse_perm SignalsBot.rank_key) in He.
  apply list_elem_of_In, filter_In in He as [He Hv].
  split; [now apply list_elem_of_In | exact Hv].
Qed.

Lemma filter_shorter {A} (f : A -> bool) (l : list A) :
  (length (List.filter f l) <= length l)%nat.
Proof.
  induction l as [| x l IH]; [reflexivity |].
  cbn [List.filter]. destruct (f x); cbn [length]; lia.
Qed.

Lemma top_signals_length cfg all :
  (length (SignalsBot.top_signals cfg all) <= length all)%nat
  /\ (length (SignalsBot.top_signals cfg all) <= 10)%nat.
Proof.
  unfold SignalsBot.top_signals. rewrite length_take.
  rewrite (Permutation_length (sort_reverse_perm SignalsBot.rank_key _)).
  pose proof (filter_shorter (SignalsBot.is_valid cfg) all). lia.
Qed.

(** ** The reported result *)

Lemma Ok_inj {A} (a b : A) : Ok a = Ok b -> a = b.
Proof. intros H. congruence. Qed.

Lemma strategies_symbol cfg d s strategy :
  strategy ∈ StrategyManager.strategies ->
  analyze strategy cfg d = Some s -> sig_symbol s = symbol d.
Proof.
  unfold StrategyManager.strategies. intros Hin H.
  repeat (apply elem_of_cons in Hin as [-> | Hin]);
    [ | | | now apply elem_of_nil in Hin ];
    cbn [analyze name] in H |- *.
  - unfold GapMomentumStrategy.analyze,
      GapMomentumStrategy.analyze_body in H.
    open_body H; reflexivity.
  - unfold VolumeBreakoutStrategy.analyze,
      VolumeBreakoutStrategy.analyze_body in H.
    open_body H; reflexivity.
  - unfold PremarketMomentumStrategy.analyze,
      PremarketMomentumStrategy.analyze_body in H.
    open_body H; reflexivity.
Qed.

Lemma signal_dict_reports e sd :
  SignalsBot.signal_dict e = Ok sd -> reports e sd.
Proof.
  destruct e as [[s d] info]. unfold SignalsBot.signal_dict.
  destruct (position_percent info), (potential_profit info),
    (potential_loss info);
    unfold mbind, res_bind, Py.bind, getitem; try discriminate.
  intros H. apply Ok_inj in H. subst sd. now repeat split.
Qed.

Lemma signal_dicts_reports l ds :
  SignalsBot.signal_dicts l = Ok ds -> Forall2 reports l ds.
Proof.
  revert ds. induction l as [| e l IH]; intros ds.
  { intros H. apply Ok_inj in H. subst ds. constructor. }
  cbn [SignalsBot.signal_dicts].
  destruct (SignalsBot.signal_dict e) as [sd | x] eqn:Hsd;
    unfold mbind, res_bind, Py.bind; [| discriminate].
  destruct (SignalsBot.signal_dicts l) as [ds' | x] eqn:Hds;
    [| discriminate].
  intros H. apply Ok_inj in H. subst ds.
  constructor; [now apply signal_dict_reports | now apply IH].
Qed.

(** What [run_analysis] returns on a non-empty universe. *)
Lemma run_analysis_structure cfg stock_data :
  stock_data <> [] ->
  let r := SignalsBot.run_analysis cfg stock_data in
  exists all st,
    SignalsBot.all_signals cfg stock_data = Ok all
    /\ Forall2 reports (SignalsBot.top_signals cfg all) (signals r)
    /\ signals_generated (summary r) = length (signals r)
    /\ total_stocks_analyzed (summary r) = length stock_data
    /\ error (summary r) = None
    /\ stats (summary r) = Some st
    /\ buy_signals st
       = length (List.filter (fun sd => is_buy (sd_signal_type sd))
                   (signals r))
    /\ sell_signals st
       = length (List.filter (fun sd => is_sell (sd_signal_type sd))
                   (signals r)).
Proof.
  intros Hne r. subst r.
  destruct (all_signals_total cfg stock_data) as [all Hall].
  destruct (signal_dicts_total (SignalsBot.top_signals cfg all))
    as (ds & Hds & _).
  { apply top_signals_full. now apply (all_signals_full cfg stock_data). }
  unfold SignalsBot.run_analysis, SignalsBot.run_analysis_body.
  destruct stock_data as [| x rest]; [congruence |].
  rewrite Hall. unfold mbind, res_bind, Py.bind. cbv beta iota.
  unfold SignalsBot._create_result. rewrite Hds.
  unfold mbind, res_bind, Py.bind. cbv beta iota zeta.
  eexists all, _. split; [reflexivity |].
  split; [now apply signal_dicts_reports |].
  repeat split.
Qed.

Lemma buy_or_sell_count (ds : list SignalDict) :
  Forall (fun sd => sd_signal_type sd <> HOLD) ds ->
  (length (List.filter (fun sd => is_buy (sd_signal_type sd)) ds)
   + length (List.filter (fun sd => is_sell (sd_signal_type sd)) ds)
   = length ds)%nat.
Proof.
  induction 1 as [| sd ds Hsd _ IH]; [reflexivity |].
  cbn [List.filter]. destruct (sd_signal_type sd); cbn [is_buy is_sell length];
    [lia | lia | congruence].
Qed.

Lemma reported_entry cfg stock_data all e :
  SignalsBot.all_signals cfg stock_data = Ok all ->
  e ∈ SignalsBot.top_signals cfg all ->
  e.1.2 ∈ map snd stock_data
  /\ exists strategy,
       strategy ∈ StrategyManager.strategies
       /\ analyze strategy cfg e.1.2 = Some e.1.1.
Proof.
  intros Hall He. apply top_signals_elem in He as [He _].
  apply all_signals_entries in Hall as [Hsel Hsub].
  split.
  - apply (sublist_subseteq _ _ Hsub).
    apply (list_elem_of_fmap_2 (fun e : SignalsBot.Entry => e.1.2)).
    exact He.
  - rewrite Forall_forall in Hsel.
    destruct (selected_entry_passed cfg e (Hsel e He))
      as (strategy & Hin & H & _).
    now exists strategy.
Qed.

Lemma Forall2_elem_r {A B} (P : A -> B -> Prop) l k y :
  Forall2 P l k -> y ∈ k -> exists x, x ∈ l /\ P x y.
Proof.
  induction 1 as [| x y' l k Hxy _ IH]; intros Hy.
  - now apply elem_of_nil in Hy.
  - apply elem_of_cons in Hy as [-> | Hy].
    + exists x. split; [apply list_elem_of_here | exact Hxy].
    + destruct (IH Hy) as (x' & Hx' & HP). exists x'.
      split; [now apply list_elem_of_further | exact HP].
Qed.

Lemma only_buy_or_sell cfg d strategy s :
  strategy ∈ StrategyManager.strategies ->
  analyze strategy cfg d = Some s ->
  signal_type s = BUY \/ signal_type s = SELL.
Proof.
  intros Hin H. by_strategy Hin H; destruct Hlev as (Hty & _); rewrite Hty.
  - now left.
  - destruct Hcase as [(-> & _) | (-> & _)]; [now left | now right].
  - now left.
Qed.

Lemma reported_types cfg stock_data :
  Forall (fun sd => sd_signal_type sd <> HOLD)
    (signals (SignalsBot.run_analysis cfg stock_data)).
Proof.
  destruct stock_data as [| x rest]; [constructor |].
  destruct (run_analysis_structure cfg (x :: rest))
    as (all & st & Hall & Hrep & _); [discriminate |].
  apply Forall_forall. intros sd Hsd.
  destruct (Forall2_elem_r _ _ _ _ Hrep Hsd) as (e & He & _ & _ & Hty & _).
  destruct (reported_entry cfg _ all e Hall He) as (_ & strategy & Hin & H).
  rewrite Hty.
  now destruct (only_buy_or_sell cfg _ strategy _ Hin H) as [-> | ->].
Qed.

(** X12: every reported signal belongs to a snapshot of the universe: its
    symbol is that snapshot's symbol, its strategy is the name of a
    registered evaluator, and its type is BUY or SELL. *)
Theorem reported_signals_from_universe cfg stock_data :
  Forall (fun sd =>
            (exists d, d ∈ map snd stock_data /\ sd_symbol sd = symbol d)
            /\ sd_strategy sd ∈ map name StrategyManager.strategies
            /\ sd_signal_type sd <> HOLD)
    (signals (SignalsBot.run_analysis cfg stock_data)).
Proof.
  destruct stock_data as [| x rest]; [constructor |].
  destruct (run_analysis_structure cfg (x :: rest))
    as (all & st & Hall & Hrep & _); [discriminate |].
  apply Forall_forall. intros sd Hsd.
  destruct (Forall2_elem_r _ _ _ _ Hrep Hsd)
    as (e & He & Hsym & Hname & Hty & _).
  destruct (reported_entry cfg _ all e Hall He)
    as (Hd & strategy & Hin & H).
  split; [| split].
  - exists e.1.2. split; [exact Hd |].
    rewrite Hsym. now apply (strategies_symbol cfg _ _ strategy).
  - rewrite Hname, (strategies_name cfg _ _ strategy Hin H).
    now apply (list_elem_of_fmap_2 name).
  - rewrite Hty.
    now destruct (only_buy_or_sell cfg _ strategy _ Hin H) as [-> | ->].
Qed.



(** ** The data fetcher's filter *)

Lemma meets_criteria_spec fc data :
  PremarketDataFetcher.meets_criteria fc data = true <-> criteria fc data.
Proof.
  unfold PremarketDataFetcher.meets_criteria, criteria.
  destruct (ltb (current_price data) (min_price fc)) eqn:Hmin;
    [apply ltb_lt in Hmin | apply ltb_ge in Hmin].
  { cbn [orb]. split; [discriminate |]. intros (H & _).
    exfalso. apply (Qlt_irrefl (current_price data)).
    now apply Qlt_le_trans with (1 := Hmin). }
  destruct (ltb (max_price fc) (current_price data)) eqn:Hmax;
    [apply ltb_lt in Hmax | apply ltb_ge in Hmax]; cbn [orb].
  { split; [discriminate |]. intros (_ & H & _).
    exfalso. apply (Qlt_irrefl (max_price fc)).
    now apply Qlt_le_trans with (1 := Hmax). }
  destruct (Z.eqb_spec (regular_volume data) 0) as [Hr | Hr],
    (Z.eqb_spec (premarket_volume data) 0) as [Hp | Hp]; cbn [andb].
  { split; [discriminate |]. intros (_ & _ & [H | H] & _); contradiction. }
  all: destruct (ltb (Qabs (gap_percent data)) 1.0) eqn:Hg;
    [apply ltb_lt in Hg | apply ltb_ge in Hg].
  all: split; try discriminate; try (intros _; repeat split; auto; fail).
  all: intros (_ & _ & _ & H); exfalso;
    apply (Qlt_irrefl (Qabs (gap_percent data)));
    now apply Qlt_le_trans with (1 := Hg).
Qed.

Lemma filter_sublist {A} (f : A -> bool) (l : list A) :
  List.filter f l `sublist_of` l.
Proof.
  induction l as [| x l IH]; [constructor |].
  cbn [List.filter]. destruct (f x);
    [now apply sublist_skip | now apply sublist_cons].
Qed.

Lemma filter_twice {A} (f : A -> bool) (l : list A) :
  List.filter f (List.filter f l) = List.filter f l.
Proof.
  induction l as [| x l IH]; [reflexivity |].
  cbn [List.filter]. destruct (f x) eqn:E; [| exact IH].
  cbn [List.filter]. now rewrite E, IH.
Qed.


Lemma sized_within_limits cfg s d info :
  0 < entry_price s -> ~ entry_price s == stop_loss s ->
  0 <= max_risk_per_trade cfg -> 0 <= max_position_size cfg ->
  SignalsBot._calculate_position_info cfg s d = Ok info ->
  (0 <= shares info)%Z
  /\ position_value info <= account_value * max_position_size cfg
  /\ 0 <= risk_amount info
  /\ risk_amount info <= account_value * max_risk_per_trade cfg.
Proof.
  intros Hentry Hstop Hrisk Hsize Hinfo.
  destruct (position_info_cases cfg s d Hentry Hstop)
    as (info' & Hinfo' & Hvalue & Hamount & _ & _ & _ & Hcase).
  rewrite Hinfo in Hinfo'. apply Ok_inj in Hinfo'. subst info'.
  pose proof (Qabs_diff_pos _ _ Hstop) as Hpr.
  destruct (capped_shares_bounds
              (account_value * max_risk_per_trade cfg)
              (Qabs (entry_price s - stop_loss s))
              (account_value * max_position_size cfg)
              (entry_price s))
    as (H0 & Hbudget & H1 & Hle & _ & Hlower);
    [now apply budget_nonneg | exact Hpr
     | now apply budget_nonneg | exact Hentry |].
  assert (Hsh : (0 <= shares info)%Z)
    by (destruct Hcase as [[_ ->] | [_ ->]]; assumption).
  split; [exact Hsh |]. split.
  { rewrite Hvalue. destruct Hcase as [[Hfit ->] | [_ ->]]; assumption. }
  rewrite Hamount. split.
  { apply Qmult_le_0_compat;
      [now apply inject_Z_nonneg | now apply Qlt_le_weak]. }
  apply Qle_trans
    with (inject_Z (int (account_value * max_risk_per_trade cfg
                         / Qabs (entry_price s - stop_loss s)))
          * Qabs (entry_price s - stop_loss s)); [| exact Hbudget].
  apply Qmult_le_compat_r; [| now apply Qlt_le_weak].
  rewrite <- Zle_Qle.
  destruct Hcase as [[_ ->] | [Hcap ->]]; [lia |].
  apply Hlower in Hcap. lia.
Qed.


(** ** Merging the premarket quotes *)

Lemma merge_one_map results sym pm_data :
  PremarketDataFetcher.merge_one results (sym, pm_data)
  = map (apply_quote sym pm_data) results.
Proof.
  unfold PremarketDataFetcher.merge_one.
  destruct (PremarketDataFetcher.contains results sym) eqn:E;
    [reflexivity |].
  unfold PremarketDataFetcher.contains in E.
  induction results as [| kv results IH]; [reflexivity |].
  cbn [existsb] in E. apply orb_false_iff in E as [Ekv E].
  cbn [map]. unfold apply_quote at 1. rewrite Ekv. now rewrite <- IH.
Qed.

Lemma apply_quote_key sym pm_data kv : (apply_quote sym pm_data kv).1 = kv.1.
Proof. unfold apply_quote. now destruct (String.eqb kv.1 sym). Qed.

Lemma apply_quote_basics sym pm_data kv :
  same_basics kv.2 (apply_quote sym pm_data kv).2.
Proof.
  unfold apply_quote. destruct (String.eqb kv.1 sym); now repeat split.
Qed.

Lemma apply_quote_other sym pm_data kv :
  kv.1 <> sym -> apply_quote sym pm_data kv = kv.
Proof.
  intros H. unfold apply_quote. apply String.eqb_neq in H. now rewrite H.
Qed.

Lemma same_basics_trans a b c :
  same_basics a b -> same_basics b c -> same_basics a c.
Proof.
  intros (H1 & H2 & H3 & H4 & H5 & H6) (G1 & G2 & G3 & G4 & G5 & G6).
  repeat split; congruence.
Qed.

Lemma merge_keys results premarket_data :
  map fst (foldl PremarketDataFetcher.merge_one results premarket_data)
  = map fst results
  /\ Forall2 same_basics (map snd results)
       (map snd (foldl PremarketDataFetcher.merge_one results
                   premarket_data)).
Proof.
  revert results. induction premarket_data as [| [sym q] pm IH];
    intros results.
  { split; [reflexivity |]. induction results; constructor; auto.
    now repeat split. }
  cbn [foldl]. rewrite merge_one_map.
  destruct (IH (map (apply_quote sym q) results)) as [Hk Hb].
  split.
  - rewrite Hk. rewrite !map_map. apply map_ext. intros kv.
    apply apply_quote_key.
  - assert (Hstep : Forall2 same_basics (map snd results)
                      (map snd (map (apply_quote sym q) results))).
    { clear. induction results as [| kv results IH]; constructor;
        [apply apply_quote_basics | exact IH]. }
    clear Hk. revert Hstep Hb.
    generalize (map snd results)
      (map snd (map (apply_quote sym q) results))
      (map snd (foldl PremarketDataFetcher.merge_one
                  (map (apply_quote sym q) results) pm)).
    intros l1 l2 l3 H12. revert l3.
    induction H12 as [| a b l1 l2 Hab _ IH']; intros l3 H23;
      inversion H23; subst; constructor.
    + now apply same_basics_trans with b.
    + now apply IH'.
Qed.

Lemma merge_untouched results premarket_data kv :
  kv ∈ results -> kv.1 ∉ map fst premarket_data ->
  kv ∈ foldl PremarketDataFetcher.merge_one results premarket_data.
Proof.
  revert results. induction premarket_data as [| [sym q] pm IH];
    intros results Hkv Hno; [exact Hkv |].
  cbn [foldl]. rewrite merge_one_map. apply IH.
  - rewrite <- (apply_quote_other sym q kv).
    + now apply (list_elem_of_fmap_2 (apply_quote sym q)).
    + intros E. apply Hno. cbn [map fst]. rewrite E.
      apply list_elem_of_here.
  - intros H. apply Hno. cbn [map]. now apply list_elem_of_further.
Qed.

Lemma merge_quoted results premarket_data sym q d :
  NoDup (map fst premarket_data) ->
  (sym, q) ∈ premarket_data -> (sym, d) ∈ results ->
  (sym, PremarketDataFetcher.set_premarket q d)
    ∈ foldl PremarketDataFetcher.merge_one results premarket_data.
Proof.
  revert results. induction premarket_data as [| [sym' q'] pm IH];
    intros results Hnd Hq Hd; [now apply elem_of_nil in Hq |].
  cbn [map fst] in Hnd. apply NoDup_cons in Hnd as [Hfresh Hnd].
  cbn [foldl]. rewrite merge_one_map.
  apply elem_of_cons in Hq as [E | Hq].
  - injection E as <- <-. apply merge_untouched; [| exact Hfresh].
    apply (list_elem_of_fmap_2 (apply_quote sym q)) in Hd.
    unfold apply_quote at 1 in Hd. cbn [fst snd] in Hd.
    now rewrite String.eqb_refl in Hd.
  - apply IH; [exact Hnd | exact Hq |].
    assert (Hne : sym <> sym').
    { intros <-. apply Hfresh.
      now apply (list_elem_of_fmap_2 fst) in Hq. }
    rewrite <- (apply_quote_other sym' q' (sym, d)) by exact Hne.
    now apply (list_elem_of_fmap_2 (apply_quote sym' q')).
Qed.

(** X17: [get_premarket_data] returns the snapshots of the yfinance fetch
    (none when [use_yfinance] is off), with the same symbols in the same
    order; quotes for other symbols add nothing; only the two premarket
    fields of a snapshot can change; and a snapshot whose symbol has no
    quote is returned as it was. *)
Theorem premarket_merge_keeps_snapshots (use_yfinance : bool)
  (yf_data : list (string * StockData))
  (premarket_data : list (string * PremarketQuote)) :
  let results := if use_yfinance then yf_data else [] in
  let out :=
    PremarketDataFetcher.get_premarket_data use_yfinance yf_data
      premarket_data in
  map fst out = map fst results
  /\ Forall2 same_basics (map snd results) (map snd out)
  /\ (forall kv, kv ∈ results -> kv.1 ∉ map fst premarket_data ->
                 kv ∈ out).
Proof.
  intros results out. subst results out.
  unfold PremarketDataFetcher.get_premarket_data.
  destruct (merge_keys (if use_yfinance then yf_data else [])
              premarket_data) as [Hk Hb].
  split; [exact Hk |]. split; [exact Hb |].
  intros kv Hkv Hno. now apply merge_untouched.
Qed.

(** X18: when the quotes have distinct symbols, a snapshot whose symbol has
    a quote gets its premarket price and volume from that quote and keeps
    its other fields; the empty dictionary of a failed request therefore
    resets the premarket price to none and the premarket volume to 0. *)
Theorem premarket_merge_applies_quote yf_data premarket_data sym q d :
  NoDup (map fst premarket_data) ->
  (sym, q) ∈ premarket_data -> (sym, d) ∈ yf_data ->
  exists d',
    (sym, d') ∈ PremarketDataFetcher.get_premarket_data true yf_data
                  premarket_data
    /\ premarket_price d' = quote_price q
    /\ premarket_volume d' = default 0%Z (quote_volume q)
    /\ same_basics d d'
    /\ (q = failed_quote ->
        premarket_price d' = None /\ premarket_volume d' = 0%Z).
Proof.
  intros Hnd Hq Hd.
  exists (PremarketDataFetcher.set_premarket q d).
  split.
  { unfold PremarketDataFetcher.get_premarket_data.
    now apply merge_quoted. }
  split; [reflexivity |]. split; [reflexivity |].
  split; [now repeat split |].
  intros ->. now split.
Qed.

Lemma premarket_merge_applies_quote_witness :
  exists d',
    ("PMK"%string, d')
      ∈ PremarketDataFetcher.get_premarket_data true
          [("PMK"%string, with_premarket)]
          [("PMK"%string, failed_quote)]
    /\ premarket_price d' = None /\ premarket_volume d' = 0%Z
    /\ premarket_price with_premarket = Some 51.
Proof.
  destruct (premarket_merge_applies_quote
              [("PMK"%string, with_premarket)]
              [("PMK"%string, failed_quote)]
              "PMK"%string failed_quote with_premarket)
    as (d' & Hin & _ & _ & _ & Hreset).
  - cbn [map fst]. apply NoDup_cons.
    split; [apply not_elem_of_nil | constructor].
  - apply list_elem_of_here.
  - apply list_elem_of_here.
  - exists d'. split; [exact Hin |].
    destruct (Hreset eq_refl) as [Hp Hv]. now repeat split.
Defined.

(** ** The watchlist slice *)

(** X19: [get_most_active_premarket] returns a prefix of the watchlist: its
    first [max_stocks_to_analyze] symbols when that number is not negative,
    the whole watchlist of 48 symbols as soon as it is at least 48, and the
    watchlist without its last [-max_stocks_to_analyze] symbols when it is
    negative. *)
Theorem most_active_is_prefix fc :
  let out := PremarketDataFetcher.get_most_active_premarket fc in
  let n := max_stocks_to_analyze fc in
  (exists rest, WATCHLIST_SYMBOLS = out ++ rest)
  /\ ((0 <= n)%Z -> length out = Nat.min (Z.to_nat n) 48)
  /\ ((48 <= n)%Z -> out = WATCHLIST_SYMBOLS)
  /\ ((n < 0)%Z -> length out = (48 - Z.to_nat (- n))%nat).
Proof.
  intros out n. subst out n.
  unfold PremarketDataFetcher.get_most_active_premarket, slice_to.
  assert (Hlen : length WATCHLIST_SYMBOLS = 48%nat) by reflexivity.
  split.
  { destruct (0 <=? max_stocks_to_analyze fc)%Z;
      eexists; symmetry; apply take_drop. }
  split; [| split].
  - intros H. apply Z.leb_le in H. rewrite H, length_take, Hlen.
    reflexivity.
  - intros H. assert (H0 : (0 <=? max_stocks_to_analyze fc)%Z = true)
      by (apply Z.leb_le; lia).
    rewrite H0. apply take_ge. rewrite Hlen. lia.
  - intros H. assert (H0 : (0 <=? max_stocks_to_analyze fc)%Z = false)
      by (apply Z.leb_gt; lia).
    rewrite H0, length_take, Hlen. lia.
Qed.

Lemma most_active_is_prefix_witness :
  PremarketDataFetcher.get_most_active_premarket fetch_config
  = WATCHLIST_SYMBOLS.
Proof.
  apply (most_active_is_prefix fetch_config). vm_compute. discriminate.
Defined.

(** ** Profit and loss of a sized signal *)

(** X20: for a signal of a registered evaluator on a positive price, sized
    under non-negative risk fractions: a BUY signal's potential loss equals
    its amount at risk and its potential profit is the share count times
    the distance to the target, both non-negative; a SELL signal's
    potential loss and profit are the negations of those amounts, hence
    never positive. *)
Theorem profit_and_loss_by_direction cfg d strategy s info :
  0 < current_price d ->
  0 <= max_risk_per_trade cfg -> 0 <= max_position_size cfg ->
  strategy ∈ StrategyManager.strategies ->
  analyze strategy cfg d = Some s ->
  SignalsBot._calculate_position_info cfg s d = Ok info ->
  exists profit loss,
    potential_profit info = Some profit
    /\ potential_loss info = Some loss
    /\ (signal_type s = BUY ->
        loss == risk_amount info
        /\ profit
           == inject_Z (shares info) * Qabs (take_profit s - entry_price s)
        /\ 0 <= profit /\ 0 <= loss)
    /\ (signal_type s = SELL ->
        loss == - risk_amount info
        /\ profit
           == - (inject_Z (shares info)
                 * Qabs (take_profit s - entry_price s))
        /\ profit <= 0 /\ loss <= 0).
Proof.
  intros Hp Hrisk Hsize Hin H Hinfo.
  destruct (strategies_sound cfg d s strategy Hin H)
    as (Hentry & _ & _ & Hstop).
  assert (Hpos : 0 < entry_price s) by now rewrite Hentry.
  destruct (sized_within_limits cfg s d info Hpos Hstop Hrisk Hsize Hinfo)
    as (Hsh & _ & _ & _).
  apply inject_Z_nonneg in Hsh.
  destruct (position_info_cases cfg s d Hpos Hstop)
    as (info' & Hinfo' & _ & Hamount & _ & Hprofit & Hloss & _).
  rewrite Hinfo in Hinfo'. apply Ok_inj in Hinfo'. subst info'.
  exists (inject_Z (shares info) * (take_profit s - entry_price s)),
    (inject_Z (shares info) * (entry_price s - stop_loss s)).
  split; [exact Hprofit |]. split; [exact Hloss |]. rewrite Hamount.
  assert (Hlong : stop_loss s < entry_price s ->
                  entry_price s < take_profit s ->
                  Qabs (entry_price s - stop_loss s)
                  == entry_price s - stop_loss s
                  /\ Qabs (take_profit s - entry_price s)
                     == take_profit s - entry_price s
                  /\ 0 <= take_profit s - entry_price s
                  /\ 0 <= entry_price s - stop_loss s).
  { intros H1 H2.
    assert (G1 : 0 <= entry_price s - stop_loss s).
    { apply Qlt_le_weak in H1.
      rewrite <- (Qplus_le_l _ _ (stop_loss s)). now ring_simplify. }
    assert (G2 : 0 <= take_profit s - entry_price s).
    { apply Qlt_le_weak in H2.
      rewrite <- (Qplus_le_l _ _ (entry_price s)). now ring_simplify. }
    split; [now apply Qabs.Qabs_pos |].
    split; [now apply Qabs.Qabs_pos |]. now split. }
  assert (Hshort : take_profit s < entry_price s ->
                   entry_price s < stop_loss s ->
                   Qabs (entry_price s - stop_loss s)
                   == - (entry_price s - stop_loss s)
                   /\ Qabs (take_profit s - entry_price s)
                      == - (take_profit s - entry_price s)
                   /\ take_profit s - entry_price s <= 0
                   /\ entry_price s - stop_loss s <= 0).
  { intros H1 H2.
    assert (G1 : entry_price s - stop_loss s <= 0).
    { apply Qlt_le_weak in H2.
      rewrite <- (Qplus_le_l _ _ (stop_loss s)). now ring_simplify. }
    assert (G2 : take_profit s - entry_price s <= 0).
    { apply Qlt_le_weak in H1.
      rewrite <- (Qplus_le_l _ _ (entry_price s)). now ring_simplify. }
    split; [now apply Qabs_neg |].
    split; [now apply Qabs_neg |]. now split. }
  assert (Hord : (signal_type s = BUY ->
                  stop_loss s < entry_price s
                  /\ entry_price s < take_profit s)
                 /\ (signal_type s = SELL ->
                     take_profit s < entry_price s
                     /\ entry_price s < stop_loss s)).
  { clear Hlong Hshort Hprofit Hloss Hamount Hinfo.
    by_strategy Hin H; destruct Hlev as (Hty & -> & -> & ->); rewrite Hty.
    - destruct Hcase as [(-> & -> & _) | (-> & -> & _)];
        (split; [intros _ | discriminate]);
        (split; [now apply below_price | now apply above_price]).
    - destruct Hcase as [(-> & -> & -> & _) | (-> & -> & -> & _)].
      + split; [intros _ | discriminate].
        split; [now apply below_price | now apply above_price].
      + split; [discriminate | intros _].
        split; [now apply below_price | now apply above_price].
    - destruct Hcase as [(-> & ->) | (-> & ->)];
        (split; [intros _ | discriminate]);
        (split; [now apply below_price | now apply above_price]). }
  destruct Hord as [Hbuy Hsell]. split.
  - intros Hty. destruct (Hbuy Hty) as [H1 H2].
    destruct (Hlong H1 H2) as (E1 & E2 & G2 & G1).
    rewrite E1, E2. split; [reflexivity |]. split; [reflexivity |].
    split; now apply Qmult_le_0_compat.
  - intros Hty. destruct (Hsell Hty) as [H1 H2].
    destruct (Hshort H1 H2) as (E1 & E2 & G2 & G1).
    rewrite E1, E2. split; [ring |]. split; [ring |].
    split.
    + assert (E : inject_Z (shares info) * (take_profit s - entry_price s)
                  == - (inject_Z (shares info)
                        * - (take_profit s - entry_price s))) by ring.
      rewrite E. apply (Qopp_le_compat 0).
      apply Qmult_le_0_compat; [exact Hsh |].
      now apply (Qopp_le_compat _ 0).
    + assert (E : inject_Z (shares info) * (entry_price s - stop_loss s)
                  == - (inject_Z (shares info)
                        * - (entry_price s - stop_loss s))) by ring.
      rewrite E. apply (Qopp_le_compat 0).
      apply Qmult_le_0_compat; [exact Hsh |].
      now apply (Qopp_le_compat _ 0).
Qed.

Lemma profit_and_loss_by_direction_witness :
  exists s info profit loss,
    GapMomentumStrategy.analyze trading_config scenario_a = Some s
    /\ SignalsBot._calculate_position_info trading_config s scenario_a
       = Ok info
    /\ potential_profit info = Some profit
    /\ potential_loss info = Some loss
    /\ loss == risk_amount info /\ 0 <= profit.
Proof.
  eexists _, _.
  edestruct (profit_and_loss_by_direction trading_config scenario_a
               {| name := GapMomentumStrategy.name;
                  analyze := GapMomentumStrategy.analyze |})
    as (profit & loss & Hprofit & Hloss & Hbuy & _).
  - reflexivity.
  - discriminate.
  - discriminate.
  - apply list_elem_of_here.
  - vm_compute. reflexivity.
  - vm_compute. reflexivity.
  - exists profit, loss.
    split; [vm_compute; reflexivity |].
    split; [vm_compute; reflexivity |].
    split; [exact Hprofit |]. split; [exact Hloss |].
    destruct (Hbuy eq_refl) as (E & _ & G & _). split; [exact E | exact G].
Defined.

(** ** Weights of the registered evaluators *)

(** X21: under the default strategy weights every signal of a registered
    evaluator finds its weight in the mapping, 0.4 for Gap Momentum and 0.3
    for the two others, so the fallback weight 0.5 is never used for
    them. *)
Theorem registered_weights_found cfg d strategy s :
  strategy_weights cfg = strategy_weights trading_config ->
  strategy ∈ StrategyManager.strategies ->
  analyze strategy cfg d = Some s ->
  exists w,
    strategy_weights cfg !! StrategyManager.weight_key s = Some w
    /\ StrategyManager.weighted_score cfg s = confidence s * w
    /\ (name strategy = GapMomentumStrategy.name -> w = 0.4)
    /\ (name strategy <> GapMomentumStrategy.name -> w = 0.3).
Proof.
  intros Hw Hin H.
  pose proof (strategies_name cfg d s strategy Hin H) as Hname.
  unfold StrategyManager.weighted_score, StrategyManager.strategy_weight,
    StrategyManager.weight_key. rewrite Hw, Hname.
  unfold StrategyManager.strategies in Hin.
  repeat (apply elem_of_cons in Hin as [-> | Hin]);
    [ | | | now apply elem_of_nil in Hin ];
    cbn [name]; eexists; (split; [vm_compute; reflexivity |]);
    (split; [reflexivity |]); split; intros E;
    first [reflexivity | discriminate E | now destruct E].
Qed.

Lemma registered_weights_found_witness :
  exists s w,
    VolumeBreakoutStrategy.analyze trading_config sell_breakout = Some s
    /\ strategy_weights trading_config !! StrategyManager.weight_key s
       = Some w
    /\ w = 0.3.
Proof.
  eexists.
  edestruct (registered_weights_found trading_config sell_breakout
               {| name := VolumeBreakoutStrategy.name;
                  analyze := VolumeBreakoutStrategy.analyze |})
    as (w & Hw & _ & _ & Hother).
  - reflexivity.
  - apply list_elem_of_further, list_elem_of_here.
  - vm_compute. reflexivity.
  - exists w. split; [vm_compute; reflexivity |].
    split; [exact Hw |]. apply Hother. discriminate.
Defined.

(** ** When Volume Breakout fires *)


(** ** When the ratio gate is open *)

Lemma analyze_step_keeps cfg d strategy signals s :
  s ∈ signals -> s ∈ StrategyManager.analyze_step cfg d signals strategy.
Proof.
  intros Hs. destruct (analyze_step_cases cfg d strategy signals)
    as (added & -> & _).
  apply elem_of_app. now left.
Qed.

Lemma analyze_fold_keeps cfg d l acc s :
  s ∈ acc -> s ∈ foldl (StrategyManager.analyze_step cfg d) acc l.
Proof.
  revert acc. induction l as [| st l IH]; intros acc Hs; [exact Hs |].
  cbn [foldl]. apply IH. now apply analyze_step_keeps.
Qed.


(** ** Limits of the sized position, with room for rounding *)

Lemma price_floor_pos : 0 < price_floor.
Proof. reflexivity. Qed.

Lemma le_within_rounding (a b : Q) :
  a <= b -> 0 <= b -> within_rounding a b.
Proof.
  intros Hab Hb. unfold within_rounding.
  apply Qle_trans with (1 := Hab).
  assert (E : b * rounding_slack + price_floor
              == b + (b * (1 # 1000000000) + price_floor))
    by (unfold rounding_slack; ring).
  rewrite E. rewrite <- (Qplus_0_r b) at 1.
  apply Qplus_le_r.
  apply (Qle_trans _ (0 + 0)); [discriminate |].
  apply Qplus_le_compat.
  - apply Qmult_le_0_compat; [exact Hb | discriminate].
  - apply Qlt_le_weak, price_floor_pos.
Qed.

(** The zero-sized position, returned when the entry equals the stop. *)
Lemma position_info_zero cfg s d info :
  entry_price s == stop_loss s ->
  SignalsBot._calculate_position_info cfg s d = Ok info ->
  shares info = 0%Z /\ position_value info = 0 /\ risk_amount info = 0
  /\ position_percent info = Some 0.
Proof.
  intros E Hinfo.
  assert (Hz : eqb (Qabs (entry_price s - stop_loss s)) 0 = true).
  { apply eqb_eq. rewrite E.
    assert (E0 : stop_loss s - stop_loss s == 0) by ring.
    rewrite E0. reflexivity. }
  unfold SignalsBot._calculate_position_info in Hinfo.
  rewrite Hz in Hinfo. apply Ok_inj in Hinfo. subst info.
  now repeat split.
Qed.

(** X1: for an entry price between 1e-300 and 1e300, a stop no further
    from the entry than the entry itself, and risk fractions between 0 and
    1, every position the orchestrator's sizer returns has a non-negative
    share count and a value between 0 and
    [account_value * max_position_size], with room for rounding; its
    percentage of the account is bounded likewise by
    [max_position_size * 100]. *)
Theorem position_value_within_cap cfg s d info :
  sizable s ->
  is_fraction (max_risk_per_trade cfg) ->
  is_fraction (max_position_size cfg) ->
  SignalsBot._calculate_position_info cfg s d = Ok info ->
  (0 <= shares info)%Z
  /\ 0 <= position_value info
  /\ within_rounding (position_value info)
       (account_value * max_position_size cfg)
  /\ exists percent,
       position_percent info = Some percent
       /\ 0 <= percent
       /\ within_rounding percent (max_position_size cfg * 100).
Proof.
  intros (Hfloor & _ & _) [Hrisk _] [Hsize _] Hinfo.
  assert (Hentry : 0 < entry_price s)
    by (apply Qlt_le_trans with (2 := Hfloor); apply price_floor_pos).
  pose proof (budget_nonneg _ Hsize) as Hcap.
  assert (Hpct : 0 <= max_position_size cfg * 100)
    by (apply Qmult_le_0_compat; [exact Hsize | discriminate]).
  destruct (Qeq_dec (entry_price s) (stop_loss s)) as [E | Hstop].
  - destruct (position_info_zero cfg s d info E Hinfo)
      as (-> & -> & _ & ->).
    split; [lia |]. split; [apply Qle_refl |].
    split; [now apply le_within_rounding |].
    exists 0. split; [reflexivity |]. split; [apply Qle_refl |].
    now apply le_within_rounding.
  - destruct (sized_within_limits cfg s d info Hentry Hstop Hrisk Hsize
                Hinfo) as (Hsh & Hle & _ & _).
    destruct (position_info_cases cfg s d Hentry Hstop)
      as (info' & Hinfo' & Hvalue & _ & Hpercent & _).
    rewrite Hinfo in Hinfo'. apply Ok_inj in Hinfo'. subst info'.
    assert (Hpos : 0 <= position_value info).
    { rewrite Hvalue. apply Qmult_le_0_compat;
        [now apply inject_Z_nonneg | now apply Qlt_le_weak]. }
    split; [exact Hsh |]. split; [exact Hpos |].
    split; [now apply le_within_rounding |].
    exists (position_value info / account_value * 100).
    split; [exact Hpercent |]. split.
    + apply Qmult_le_0_compat; [| discriminate].
      apply quotient_nonneg; [exact Hpos | apply account_value_pos].
    + apply le_within_rounding; [| exact Hpct].
      apply Qmult_le_compat_r; [| discriminate].
      apply Qle_shift_div_r; [apply account_value_pos |].
      now rewrite Qmult_comm.
Qed.

Lemma position_value_within_cap_witness :
  exists info,
    SignalsBot._calculate_position_info trading_config signal_b snapshot_b
    = Ok info
    /\ (0 <= shares info)%Z
    /\ within_rounding (position_value info)
         (account_value * max_position_size trading_config).
Proof.
  eexists. split; [vm_compute; reflexivity |].
  edestruct (position_value_within_cap trading_config signal_b snapshot_b)
    as (Hsh & _ & Hle & _).
  - repeat split; vm_compute; discriminate.
  - split; discriminate.
  - split; discriminate.
  - vm_compute. reflexivity.
  - split; [exact Hsh | exact Hle].
Defined.

(** X2: under the same conditions the amount at risk of every returned
    position lies between 0 and [account_value * max_risk_per_trade], with
    room for rounding. *)
Theorem risk_amount_within_budget cfg s d info :
  sizable s ->
  is_fraction (max_risk_per_trade cfg) ->
  is_fraction (max_position_size cfg) ->
  SignalsBot._calculate_position_info cfg s d = Ok info ->
  0 <= risk_amount info
  /\ within_rounding (risk_amount info)
       (account_value * max_risk_per_trade cfg).
Proof.
  intros (Hfloor & _ & _) [Hrisk _] [Hsize _] Hinfo.
  assert (Hentry : 0 < entry_price s)
    by (apply Qlt_le_trans with (2 := Hfloor); apply price_floor_pos).
  pose proof (budget_nonneg _ Hrisk) as Hbudget.
  destruct (Qeq_dec (entry_price s) (stop_loss s)) as [E | Hstop].
  - destruct (position_info_zero cfg s d info E Hinfo)
      as (_ & _ & -> & _).
    split; [apply Qle_refl | now apply le_within_rounding].
  - destruct (sized_within_limits cfg s d info Hentry Hstop Hrisk Hsize
                Hinfo) as (_ & _ & H0 & Hle).
    split; [exact H0 | now apply le_within_rounding].
Qed.

Lemma risk_amount_within_budget_witness :
  exists info,
    SignalsBot._calculate_position_info trading_config signal_b snapshot_b
    = Ok info
    /\ 0 <= risk_amount info
    /\ within_rounding (risk_amount info)
         (account_value * max_risk_per_trade trading_config).
Proof.
  eexists. split; [vm_compute; reflexivity |].
  apply (risk_amount_within_budget trading_config signal_b snapshot_b).
  - repeat split; vm_compute; discriminate.
  - split; discriminate.
  - split; discriminate.
  - vm_compute. reflexivity.
Defined.

(** ** Reward/risk ratio by branch *)

Lemma near_of_eq (x v : Q) : x == v -> near x v.
Proof.
  intros E. unfold near. rewrite E.
  assert (E0 : v - v == 0) by ring. rewrite E0. discriminate.
Qed.

Lemma near_bounds (x v lo hi : Q) :
  near x v -> lo <= v - (1 # 1000000000) -> v + (1 # 1000000000) <= hi ->
  lo <= x /\ x <= hi.
Proof.
  unfold near. intros H Hlo Hhi.
  apply Qabs_Qle_condition in H as [H1 H2]. split.
  - apply Qle_trans with (1 := Hlo).
    assert (E1 : v - (1 # 1000000000) == - (1 # 1000000000) + v) by ring.
    assert (E2 : x == (x - v) + v) by ring.
    rewrite E1, E2. apply Qplus_le_compat; [exact H1 | apply Qle_refl].
  - apply Qle_trans with (2 := Hhi).
    assert (E1 : v + (1 # 1000000000) == (1 # 1000000000) + v) by ring.
    assert (E2 : x == (x - v) + v) by ring.
    rewrite E1, E2. apply Qplus_le_compat; [exact H2 | apply Qle_refl].
Qed.

(** X6: for a current price between 1e-300 and 1e300 the reward/risk
    ratio of a returned signal is fixed by the branch that produced it, up
    to rounding: within 1e-9 of 2 or of 8/5 for Gap Momentum, of 2 for
    Volume Breakout, of 2 or of 3/2 for Premarket Momentum; so it lies
    between 1.49 and 2.01. *)
Theorem evaluator_reward_risk_values cfg d strategy s :
  in_price_range d ->
  strategy ∈ StrategyManager.strategies ->
  analyze strategy cfg d = Some s ->
  (name strategy = GapMomentumStrategy.name ->
   near (risk_reward_ratio s) 2 \/ near (risk_reward_ratio s) (8 # 5))
  /\ (name strategy = VolumeBreakoutStrategy.name ->
      near (risk_reward_ratio s) 2)
  /\ (name strategy = PremarketMomentumStrategy.name ->
      near (risk_reward_ratio s) 2 \/ near (risk_reward_ratio s) (3 # 2))
  /\ 149 # 100 <= risk_reward_ratio s /\ risk_reward_ratio s <= 201 # 100.
Proof.
  intros _ Hin H.
  destruct (strategies_sound cfg d s strategy Hin H) as (_ & Hp & _).
  assert (Hb : forall v, near (risk_reward_ratio s) v ->
                         149 # 100 <= v - (1 # 1000000000) ->
                         v + (1 # 1000000000) <= 201 # 100 ->
                         149 # 100 <= risk_reward_ratio s
                         /\ risk_reward_ratio s <= 201 # 100).
  { intros v. apply near_bounds. }
  by_strategy Hin H.
  - assert (Hn : near (risk_reward_ratio s) 2
                 \/ near (risk_reward_ratio s) (8 # 5)).
    { rewrite Hrr. destruct Hcase as [(-> & -> & _) | (-> & -> & _)];
        [left | right]; apply near_of_eq;
        rewrite long_ratio by (exact Hp || discriminate); reflexivity. }
    split; [intros _; exact Hn |].
    split; [discriminate |]. split; [discriminate |].
    destruct Hn as [Hn | Hn]; apply (Hb _ Hn); discriminate.
  - assert (Hn : near (risk_reward_ratio s) 2).
    { rewrite Hrr.
      destruct Hcase as [(_ & -> & -> & _) | (_ & -> & -> & _)];
        apply near_of_eq;
        rewrite abs_ratio by (exact Hp || discriminate); reflexivity. }
    split; [discriminate |]. split; [intros _; exact Hn |].
    split; [discriminate |]. apply (Hb _ Hn); discriminate.
  - assert (Hn : near (risk_reward_ratio s) 2
                 \/ near (risk_reward_ratio s) (3 # 2)).
    { rewrite Hrr. destruct Hcase as [(-> & ->) | (-> & ->)];
        [left | right]; apply near_of_eq;
        rewrite long_ratio by (exact Hp || discriminate); reflexivity. }
    split; [discriminate |]. split; [discriminate |].
    split; [intros _; exact Hn |].
    destruct Hn as [Hn | Hn]; apply (Hb _ Hn); discriminate.
Qed.

Lemma evaluator_reward_risk_values_witness :
  exists s,
    VolumeBreakoutStrategy.analyze trading_config sell_breakout = Some s
    /\ near (risk_reward_ratio s) 2.
Proof.
  eexists. split; [vm_compute; reflexivity |].
  eapply (evaluator_reward_risk_values trading_config sell_breakout
            {| name := VolumeBreakoutStrategy.name;
               analyze := VolumeBreakoutStrategy.analyze |}).
  - split; discriminate.
  - apply list_elem_of_further, list_elem_of_here.
  - vm_compute. reflexivity.
  - reflexivity.
Defined.

(** ** The ratio gate at its extremes *)

Lemma all_signals_nil_on cfg stock_data :
  Forall (fun kv : string * StockData =>
            StrategyManager.analyze_stock cfg kv.2 = []) stock_data ->
  SignalsBot.all_signals cfg stock_data = Ok [].
Proof.
  induction 1 as [| [sym d] rest Hd _ IH]; [reflexivity |].
  cbn [SignalsBot.all_signals]. unfold SignalsBot.select_one.
  cbn [snd] in Hd. rewrite Hd, IH. reflexivity.
Qed.

(** X9: under a minimum reward/risk ratio of at least 2.01 no signal on a
    price between 1e-300 and 1e300 passes the registry's ratio test: such a
    snapshot has no candidate, and [run_analysis] reports no signal for a
    universe of such snapshots. *)
Theorem no_signal_above_ratio_two cfg :
  201 # 100 <= min_risk_reward_ratio cfg ->
  (forall d, in_price_range d -> StrategyManager.analyze_stock cfg d = [])
  /\ (forall stock_data,
        Forall (fun kv : string * StockData => in_price_range kv.2)
          stock_data ->
        signals (SignalsBot.run_analysis cfg stock_data) = []
        /\ signals_generated
             (summary (SignalsBot.run_analysis cfg stock_data)) = 0%nat).
Proof.
  intros Hmin.
  assert (Hnone : forall d, in_price_range d ->
                            StrategyManager.analyze_stock cfg d = []).
  { intros d _. apply empty_of_no_elements. intros s Hs.
    apply analyze_stock_passed in Hs as (strategy & Hin & H & _ & Hr).
    destruct (evaluator_reward_risk_bounds cfg d strategy s Hin H)
      as [_ Hle].
    assert (Hlt : 2 < 201 # 100) by reflexivity.
    apply (Qlt_irrefl 2). apply Qlt_le_trans with (1 := Hlt).
    apply Qle_trans with (1 := Hmin).
    now apply Qle_trans with (1 := Hr). }
  split; [exact Hnone |].
  intros stock_data Hrange.
  unfold SignalsBot.run_analysis, SignalsBot.run_analysis_body.
  destruct stock_data as [| x rest]; [now split |].
  rewrite (all_signals_nil_on cfg (x :: rest)); [now split |].
  eapply Forall_impl; [exact Hrange |].
  intros kv Hkv. now apply Hnone.
Qed.

Lemma no_signal_above_ratio_two_witness :
  StrategyManager.analyze_stock strict_ratio_config sell_breakout = []
  /\ StrategyManager.analyze_stock trading_config sell_breakout <> []
  /\ signals (SignalsBot.run_analysis strict_ratio_config
                [("SSS"%string, sell_breakout)]) = [].
Proof.
  destruct (no_signal_above_ratio_two strict_ratio_config)
    as [Hnone Hrun]; [discriminate |].
  split; [apply Hnone; split; discriminate |].
  split; [vm_compute; discriminate |].
  apply Hrun. repeat constructor; discriminate.
Defined.

(** X23: under a minimum reward/risk ratio of at most 1.49 the ratio test
    of the registry rejects no signal on a price between 1e-300 and 1e300:
    every signal of a registered evaluator with confidence above 0.3 is
    among the candidates of its snapshot. *)
Theorem ratio_gate_open cfg d strategy s :
  min_risk_reward_ratio cfg <= 149 # 100 ->
  in_price_range d ->
  strategy ∈ StrategyManager.strategies ->
  analyze strategy cfg d = Some s ->
  0.3 < confidence s ->
  s ∈ StrategyManager.analyze_stock cfg d.
Proof.
  intros Hmin _ Hin H Hconf.
  destruct (evaluator_reward_risk_bounds cfg d strategy s Hin H) as [Hlow _].
  assert (Hr : leb (min_risk_reward_ratio cfg) (risk_reward_ratio s) = true).
  { apply leb_le. apply Qle_trans with (1 := Hmin).
    apply Qle_trans with (2 := Hlow). discriminate. }
  apply ltb_lt in Hconf.
  unfold StrategyManager.analyze_stock.
  generalize (@nil StrategySignal) as acc.
  induction StrategyManager.strategies as [| st l IH]; intros acc;
    [now apply elem_of_nil in Hin |].
  cbn [foldl]. apply elem_of_cons in Hin as [<- | Hin].
  - apply analyze_fold_keeps. unfold StrategyManager.analyze_step.
    rewrite H, Hconf, Hr. apply elem_of_app. right.
    apply list_elem_of_here.
  - now apply IH.
Qed.

Lemma ratio_gate_open_witness :
  exists s,
    GapMomentumStrategy.analyze loose_ratio_config sell_breakout = Some s
    /\ risk_reward_ratio s == 8 # 5
    /\ s ∈ StrategyManager.analyze_stock loose_ratio_config sell_breakout.
Proof.
  eexists. split; [vm_compute; reflexivity |]. split; [reflexivity |].
  apply (ratio_gate_open loose_ratio_config sell_breakout
           {| name := GapMomentumStrategy.name;
              analyze := GapMomentumStrategy.analyze |}).
  - discriminate.
  - split; discriminate.
  - apply list_elem_of_here.
  - vm_compute. reflexivity.
  - reflexivity.
Defined.

(** ** Counts of the summary *)

(** X13: the counts of the summary agree with the reported list: the
    number of signals is the length of the list, at most ten and at most the
    number of snapshots; a summary without an error counts every snapshot
    of the universe as analysed; and the BUY and SELL counts, when present,
    add up to the number of signals. *)
Theorem summary_counts cfg stock_data :
  let r := SignalsBot.run_analysis cfg stock_data in
  signals_generated (summary r) = length (signals r)
  /\ (length (signals r) <= 10)%nat
  /\ (length (signals r) <= length stock_data)%nat
  /\ (error (summary r) = None ->
      total_stocks_analyzed (summary r) = length stock_data)
  /\ (forall st, stats (summary r) = Some st ->
                 (buy_signals st + sell_signals st)%nat
                 = signals_generated (summary r)).
Proof.
  intros r. subst r.
  destruct stock_data as [| x rest].
  { cbn. repeat split; try lia; discriminate. }
  destruct (run_analysis_structure cfg (x :: rest))
    as (all & st & Hall & Hrep & Hgen & Htotal & _ & Hst & Hbuy & Hsell);
    [discriminate |].
  pose proof (Forall2_length _ _ _ Hrep) as Hlen.
  destruct (top_signals_length cfg all) as [Hla Hten].
  pose proof (all_signals_entries cfg _ _ Hall) as [_ Hsub].
  apply sublist_length in Hsub. rewrite !length_map in Hsub.
  split; [exact Hgen |]. split; [lia |]. split; [lia |].
  split; [intros _; exact Htotal |].
  intros st' Hst'. rewrite Hst in Hst'. apply (inj Some) in Hst'.
  subst st'. rewrite Hbuy, Hsell, Hgen.
  apply buy_or_sell_count, reported_types.
Qed.

(** ** What the data fetcher's filter rejects *)

Lemma meets_criteria_not_rejected fc data :
  PremarketDataFetcher.meets_criteria fc data = true <-> ~ rejected fc data.
Proof.
  rewrite meets_criteria_spec. unfold criteria, rejected. split.
  - intros (Hlow & Hhigh & Hvol & Hgap) [H | [H | [[Hr Hp] | H]]].
    + now apply (Qlt_not_le _ _ H).
    + now apply (Qlt_not_le _ _ H).
    + destruct Hvol as [Hvol | Hvol]; contradiction.
    + now apply (Qlt_not_le _ _ H).
  - intros H. repeat split.
    + apply Qnot_lt_le. intros Hlt. apply H. now left.
    + apply Qnot_lt_le. intros Hlt. apply H. right. now left.
    + destruct (Z.eq_dec (regular_volume data) 0%Z) as [Hr | Hr];
        [| now left].
      destruct (Z.eq_dec (premarket_volume data) 0%Z) as [Hp | Hp];
        [| now right].
      exfalso. apply H. right. right. left. now split.
    + apply Qnot_lt_le. intros Hlt. apply H. right. right. now right.
Qed.

(** X15: [filter_stocks_by_criteria] keeps the snapshots in their order and
    drops exactly those it rejects: the ones priced below [min_price] or
    above [max_price], the ones with neither regular nor premarket volume,
    and the ones whose gap is below 1% in absolute value; filtering again
    changes nothing. *)
Theorem filter_keeps_criteria fc stock_data :
  PremarketDataFetcher.filter_stocks_by_criteria fc stock_data
    `sublist_of` stock_data
  /\ (forall kv,
        kv ∈ PremarketDataFetcher.filter_stocks_by_criteria fc stock_data
        <-> kv ∈ stock_data /\ ~ rejected fc kv.2)
  /\ PremarketDataFetcher.filter_stocks_by_criteria fc
       (PremarketDataFetcher.filter_stocks_by_criteria fc stock_data)
     = PremarketDataFetcher.filter_stocks_by_criteria fc stock_data.
Proof.
  unfold PremarketDataFetcher.filter_stocks_by_criteria.
  split; [apply filter_sublist |]. split; [| apply filter_twice].
  intros kv. rewrite list_elem_of_In, filter_In, <- list_elem_of_In.
  now rewrite meets_criteria_not_rejected.
Qed.

(** ** Positions sized on the fetched universe *)

Lemma price_risk_below (p a : Q) :
  0 < p -> 0 <= a -> a <= 2 -> Qabs (p - p * a) <= p.
Proof.
  intros Hp Ha Ha2. apply Qabs_Qle_condition. split.
  - apply Qle_minus_iff.
    assert (E : p - p * a + - - p == p * (2 - a)) by ring.
    rewrite E. apply Qmult_le_0_compat; [now apply Qlt_le_weak |].
    apply -> Qle_minus_iff. exact Ha2.
  - apply Qle_minus_iff.
    assert (E : p + - (p - p * a) == p * a) by ring.
    rewrite E. apply Qmult_le_0_compat; [now apply Qlt_le_weak | exact Ha].
Qed.

(** The stop of an evaluator's signal is no further from the entry than the
    entry itself. *)
Lemma evaluator_price_risk cfg d strategy s :
  0 < current_price d ->
  strategy ∈ StrategyManager.strategies ->
  analyze strategy cfg d = Some s ->
  entry_price s = current_price d
  /\ Qabs (entry_price s - stop_loss s) <= entry_price s.
Proof.
  intros Hp Hin H.
  by_strategy Hin H; destruct Hlev as (_ & -> & -> & _);
    (split; [reflexivity |]).
  - destruct Hcase as [(-> & _) | (-> & _)];
      apply price_risk_below; (exact Hp || discriminate).
  - destruct Hcase as [(_ & -> & _) | (_ & -> & _)];
      apply price_risk_below; (exact Hp || discriminate).
  - destruct Hcase as [(-> & _) | (-> & _)];
      apply price_risk_below; (exact Hp || discriminate).
Qed.

Lemma sized_with_rounding cfg s d info :
  sizable s ->
  is_fraction (max_risk_per_trade cfg) ->
  is_fraction (max_position_size cfg) ->
  SignalsBot._calculate_position_info cfg s d = Ok info ->
  (0 <= shares info)%Z
  /\ within_rounding (position_value info)
       (account_value * max_position_size cfg)
  /\ 0 <= risk_amount info
  /\ within_rounding (risk_amount info)
       (account_value * max_risk_per_trade cfg).
Proof.
  intros (Hfloor & _ & _) [Hrisk _] [Hsize _] Hinfo.
  assert (Hentry : 0 < entry_price s)
    by (apply Qlt_le_trans with (2 := Hfloor); apply price_floor_pos).
  pose proof (budget_nonneg _ Hrisk) as Hbudget.
  pose proof (budget_nonneg _ Hsize) as Hcap.
  destruct (Qeq_dec (entry_price s) (stop_loss s)) as [E | Hstop].
  - destruct (position_info_zero cfg s d info E Hinfo)
      as (-> & -> & -> & _).
    split; [lia |]. split; [now apply le_within_rounding |].
    split; [apply Qle_refl | now apply le_within_rounding].
  - destruct (sized_within_limits cfg s d info Hentry Hstop Hrisk Hsize
                Hinfo) as (Hsh & Hle & H0 & Hle').
    split; [exact Hsh |]. split; [now apply le_within_rounding |].
    split; [exact H0 | now apply le_within_rounding].
Qed.

(** X16: on the universe that [fetch_premarket_stocks] hands to the run,
    filtered with price limits between 1e-300 and 1e300, under risk
    fractions between 0 and 1, every selection the loop of the run records
    is entered at a price within the limits and sized within both budgets,
    with room for rounding: a non-negative share count, a position value of
    at most [account_value * max_position_size] and an amount at risk
    between 0 and [account_value * max_risk_per_trade]. *)
Theorem filtered_run_positions_bounded fc cfg use_yfinance yf_data
  premarket_data all :
  price_floor <= min_price fc -> max_price fc <= price_ceiling ->
  is_fraction (max_risk_per_trade cfg) ->
  is_fraction (max_position_size cfg) ->
  SignalsBot.all_signals cfg
    (PremarketDataFetcher.fetch_premarket_stocks fc use_yfinance yf_data
       premarket_data) = Ok all ->
  Forall (fun e : SignalsBot.Entry =>
            min_price fc <= entry_price e.1.1
            /\ entry_price e.1.1 <= max_price fc
            /\ (0 <= shares e.2)%Z
            /\ within_rounding (position_value e.2)
                 (account_value * max_position_size cfg)
            /\ 0 <= risk_amount e.2
            /\ within_rounding (risk_amount e.2)
                 (account_value * max_risk_per_trade cfg))
    all.
Proof.
  intros Hmin Hmax Hrisk Hsize Hall.
  unfold PremarketDataFetcher.fetch_premarket_stocks in Hall.
  set (data := PremarketDataFetcher.get_premarket_data use_yfinance yf_data
                 premarket_data) in Hall.
  pose proof (all_signals_entries cfg _ _ Hall) as [Hsel Hsub].
  apply Forall_forall. intros e He.
  rewrite Forall_forall in Hsel. specialize (Hsel e He).
  assert (Hd : e.1.2 ∈ map snd
                 (PremarketDataFetcher.filter_stocks_by_criteria fc data)).
  { apply (sublist_subseteq _ _ Hsub).
    now apply (list_elem_of_fmap_2 (fun e : SignalsBot.Entry => e.1.2)). }
  apply list_elem_of_fmap_1 in Hd as (kv & Ekv & Hkv).
  unfold PremarketDataFetcher.filter_stocks_by_criteria in Hkv.
  apply list_elem_of_In, filter_In in Hkv as [_ Hcrit].
  apply meets_criteria_spec in Hcrit as (Hlow & Hhigh & _).
  rewrite <- Ekv in Hlow, Hhigh.
  assert (Hp : 0 < current_price e.1.2).
  { apply Qlt_le_trans with (2 := Hlow).
    apply Qlt_le_trans with (2 := Hmin). apply price_floor_pos. }
  destruct (selected_entry_passed cfg e Hsel) as (strategy & Hin & H & _).
  destruct (evaluator_price_risk cfg _ strategy _ Hp Hin H)
    as [Hentry Hstop].
  destruct Hsel as (_ & _ & Hinfo).
  split; [now rewrite Hentry |]. split; [now rewrite Hentry |].
  apply (sized_with_rounding cfg e.1.1 e.1.2); try assumption.
  split; [| split; [| exact Hstop]]; rewrite Hentry.
  - now apply Qle_trans with (1 := Hmin).
  - now apply Qle_trans with (2 := Hmax).
Qed.

Lemma filtered_run_positions_bounded_witness :
  exists all,
    SignalsBot.all_signals trading_config
      (PremarketDataFetcher.fetch_premarket_stocks fetch_config true
         [("SSS"%string, sell_breakout); ("FLT"%string, flat_snapshot)] [])
    = Ok all
    /\ length all = 1%nat
    /\ Forall (fun e : SignalsBot.Entry =>
                 min_price fetch_config <= entry_price e.1.1
                 /\ entry_price e.1.1 <= max_price fetch_config
                 /\ (0 <= shares e.2)%Z
                 /\ within_rounding (position_value e.2)
                      (account_value * max_position_size trading_config)
                 /\ 0 <= risk_amount e.2
                 /\ within_rounding (risk_amount e.2)
                      (account_value * max_risk_per_trade trading_config))
         all.
Proof.
  eexists. split; [vm_compute; reflexivity |]. split; [reflexivity |].
  apply (filtered_run_positions_bounded fetch_config trading_config true
           [("SSS"%string, sell_breakout); ("FLT"%string, flat_snapshot)]
           []).
  - vm_compute. discriminate.
  - vm_compute. discriminate.
  - split; discriminate.
  - split; discriminate.
  - vm_compute. reflexivity.
Defined.

(** ** Ranking across instruments *)

(** C3: the ranked list is the first ten entries of a list that holds
    exactly the per-instrument selections with confidence at least 0.4 and
    reward/risk ratio at least the configured minimum, ordered by
    non-increasing [confidence * risk_reward_ratio], in which selections
    with equal products keep the order they had in the universe; and the
    signals that [run_analysis] reports are the dictionaries of that list,
    entry by entry and in its order. *)
Theorem top_signals_ranked cfg :
  (forall all : list SignalsBot.Entry,
     exists ranked,
       SignalsBot.top_signals cfg all = take 10 ranked
       /\ ranked ≡ₚ List.filter (SignalsBot.is_valid cfg) all
       /\ (forall e, e ∈ ranked <->
                     e ∈ all /\ 0.4 <= confidence e.1.1
                     /\ min_risk_reward_ratio cfg <= risk_reward_ratio e.1.1)
       /\ StronglySorted
            (fun x y : SignalsBot.Entry =>
               confidence y.1.1 * risk_reward_ratio y.1.1
               <= confidence x.1.1 * risk_reward_ratio x.1.1) ranked
       /\ (forall k,
             List.filter
               (fun e : SignalsBot.Entry =>
                  eqb (confidence e.1.1 * risk_reward_ratio e.1.1) k) ranked
             = List.filter
                 (fun e : SignalsBot.Entry =>
                    eqb (confidence e.1.1 * risk_reward_ratio e.1.1) k)
                 (List.filter
                    (fun e : SignalsBot.Entry =>
                       leb 0.4 (confidence e.1.1)
                       && leb (min_risk_reward_ratio cfg)
                            (risk_reward_ratio e.1.1)) all))
       /\ (length (SignalsBot.top_signals cfg all) <= 10)%nat)
  /\ (forall stock_data all ds,
        stock_data <> [] ->
        SignalsBot.all_signals cfg stock_data = Ok all ->
        SignalsBot.signal_dicts (SignalsBot.top_signals cfg all) = Ok ds ->
        signals (SignalsBot.run_analysis cfg stock_data) = ds
        /\ Forall2 reports (SignalsBot.top_signals cfg all) ds).
Proof.
  split.
  - intros all.
    exists (sort_reverse SignalsBot.rank_key
              (List.filter (SignalsBot.is_valid cfg) all)).
    split; [reflexivity |].
    split; [apply sort_reverse_perm |].
    split.
    { intros e. rewrite (sort_reverse_perm SignalsBot.rank_key).
      rewrite list_elem_of_In, filter_In, <- list_elem_of_In.
      unfold SignalsBot.is_valid. rewrite andb_true_iff, !leb_le. tauto. }
    split; [exact (sort_reverse_sorted SignalsBot.rank_key _) |].
    split;
      [intros k;
       exact (sort_reverse_stable SignalsBot.rank_key k
                (List.filter (SignalsBot.is_valid cfg) all)) |].
    unfold SignalsBot.top_signals. rewrite length_take. lia.
  - intros stock_data all ds Hne Hall Hds.
    split; [| now apply signal_dicts_reports].
    unfold SignalsBot.run_analysis, SignalsBot.run_analysis_body.
    destruct stock_data as [| x rest]; [congruence |].
    rewrite Hall. unfold mbind, res_bind, Py.bind. cbv beta iota.
    unfold SignalsBot._create_result. rewrite Hds.
    unfold mbind, res_bind, Py.bind. cbv beta iota zeta.
    reflexivity.
Qed.

Lemma top_signals_ranked_witness :
  map sd_symbol
    (signals (SignalsBot.run_analysis trading_config
                [("MOD"%string, modest_breakout);
                 ("SSS"%string, sell_breakout);
                 ("SST"%string, sell_breakout_twin)]))
  = ["SSS"; "SST"; "MOD"]%string
  /\ map sd_symbol
       (signals (SignalsBot.run_analysis trading_config
                   [("SST"%string, sell_breakout_twin);
                    ("MOD"%string, modest_breakout);
                    ("SSS"%string, sell_breakout)]))
     = ["SST"; "SSS"; "MOD"]%string.
Proof.
  destruct (top_signals_ranked trading_config) as [_ Hrun].
  split.
  - edestruct (Hrun [("MOD"%string, modest_breakout);
                     ("SSS"%string, sell_breakout);
                     ("SST"%string, sell_breakout_twin)]) as [Hsig _].
    + discriminate.
    + vm_compute. reflexivity.
    + vm_compute. reflexivity.
    + rewrite Hsig. reflexivity.
  - edestruct (Hrun [("SST"%string, sell_breakout_twin);
                     ("MOD"%string, modest_breakout);
                     ("SSS"%string, sell_breakout)]) as [Hsig _].
    + discriminate.
    + vm_compute. reflexivity.
    + vm_compute. reflexivity.
    + rewrite Hsig. reflexivity.
Defined.

(** ** The reward/risk ratio on binary64 *)






